(** * Librarian: per-repository MCP servers, JSON-RPC engine and UI stores

    A shallow embedding of
    - the Rust server code of [.agent_library/RUST_MCP_SERVER.md]
      (JSON-RPC engine, port search) and of the Tauri command guide
      (registry of servers: [start_repository_mcp_server],
      [stop_repository_mcp_server], [get_server_status]; parsing of a
      library);
    - the Svelte stores [src/lib/stores/config.ts] and
      [src/lib/stores/fileWatcher.ts].

    Ports are [Z] (the code has [u16]); strings are [string] (bytes);
    the registry [HashMap<String, McpServerHandle>] is a [gmap string _];
    JS arrays are lists; fallible Rust code returns [Result]. Commands,
    the futures spawned on the tokio runtime and the continuations of JS
    promises are steps of their own, taken one at a time in any order. *)

From Stdlib Require Import ZArith Lia Ascii.
From stdpp Require Import gmap strings list pretty.

Open Scope string_scope.
Open Scope list_scope.
Set Warnings "-register-all".

(** ** Results *)

Inductive Result (T E : Type) : Type :=
| Ok (t : T)
| Err (e : E).
Arguments Ok {T E} t.
Arguments Err {T E} e.

Definition is_ok {T E} (r : Result T E) : bool :=
  match r with Ok _ => true | Err _ => false end.

(** ** JSON values and JSON-RPC 2.0 envelopes (RUST_MCP_SERVER.md) *)

Module Json.

(** [serde_json::Value] *)
Inductive Value : Type :=
| Null
| Bool (b : bool)
| Number (n : Z)
| String (s : string)
| Array (items : list Value)
| Object (fields : list (string * Value)).

(** An [Option<String>] field without [skip_serializing_if]. *)
Definition opt_string (o : option string) : Value :=
  match o with
  | Some s => String s
  | None => Null
  end.

End Json.

Module JsonRpc.
Import Json.

Record JsonRpcRequest : Type := mkRequest {
  req_jsonrpc : string;
  req_id : option Value;
  req_method : string;
  req_params : option Value;
}.

Record JsonRpcError : Type := mkError {
  code : Z;
  message : string;
  data : option Value;
}.

Record JsonRpcResponse : Type := mkResponse {
  jsonrpc : string;
  id : option Value;
  result : option Value;
  error : option JsonRpcError;
}.

(** The prompt fields the handlers read. [name] is the MCP name of the
    prompt: the endpoint id of the agent index (MCP_PROTOCOL.md,
    [name: endpoint.id]). *)
Record Prompt : Type := mkPrompt {
  prompt_name : string;
  prompt_description : string;
  prompt_content : string;
}.

Record AgentLibrary : Type := mkLibrary {
  library_name : string;
  library_description : string;
  prompts : list Prompt;
}.

Record ServerInfo : Type := mkServerInfo {
  server_name : string;
  server_version : string;
}.

(** [McpServerState]; the [Arc<RwLock<Vec<AgentLibrary>>>] is read once per
    request, so a handler sees the list it holds at that time. *)
Record McpServerState : Type := mkState {
  agent_libraries : list AgentLibrary;
  server_info : ServerInfo;
}.

Definition McpServerState_new : McpServerState :=
  mkState [] (mkServerInfo "librarian-mcp-server" "1.0.0").

(** *** initialize *)

Definition ServerInfo_to_value (i : ServerInfo) : Value :=
  Object [("name", String (server_name i)); ("version", String (server_version i))].

Definition handle_initialize (params : option Value) (state : McpServerState)
  : Result Value JsonRpcError :=
  Ok (Object
        [("protocolVersion", String "2024-11-05");
         ("capabilities",
          Object [("prompts", Object [("listChanged", Bool false)]);
                  ("resources", Object [("subscribe", Bool false);
                                        ("listChanged", Bool false)])]);
         ("serverInfo", ServerInfo_to_value (server_info state))]).

(** *** prompts/list *)

Record PromptInfo : Type := mkPromptInfo {
  info_name : string;
  info_description : option string;
}.

Definition PromptInfo_to_value (p : PromptInfo) : Value :=
  Object [("name", String (info_name p));
          ("description", opt_string (info_description p));
          ("arguments", Null)].

(** The two nested [for] loops pushing onto [prompts]. *)
Definition all_prompts (libraries : list AgentLibrary) : list Prompt :=
  concat (map prompts libraries).

Definition handle_prompts_list (params : option Value) (state : McpServerState)
  : Result Value JsonRpcError :=
  let infos :=
    map (fun p => mkPromptInfo (prompt_name p) (Some (prompt_description p)))
        (all_prompts (agent_libraries state)) in
  Ok (Object [("prompts", Array (map PromptInfo_to_value infos))]).

(** *** prompts/get *)

Record PromptsGetParams : Type := mkGetParams {
  params_name : string;
  params_arguments : option Value;
}.

Inductive PromptContent : Type :=
| Text (text : string).

Record PromptMessage : Type := mkMessage {
  role : string;
  content : PromptContent;
}.

Record PromptsGetResult : Type := mkGetResult {
  description : option string;
  messages : list PromptMessage;
}.

(** [#[serde(tag = "type")]] with [rename = "text"]. *)
Definition PromptContent_to_value (c : PromptContent) : Value :=
  match c with
  | Text t => Object [("type", String "text"); ("text", String t)]
  end.

Definition PromptMessage_to_value (m : PromptMessage) : Value :=
  Object [("role", String (role m)); ("content", PromptContent_to_value (content m))].

Definition PromptsGetResult_to_value (r : PromptsGetResult) : Value :=
  Object [("description", opt_string (description r));
          ("messages", Array (map PromptMessage_to_value (messages r)))].

Definition invalid_params : JsonRpcError := mkError (-32602) "Invalid params" None.

Definition not_found (name : string) : JsonRpcError :=
  mkError (-32602) ("Prompt '" +:+ name +:+ "' not found") None.

(** The inner loop: the first prompt of the library whose name matches. *)
Fixpoint search_prompts (name : string) (ps : list Prompt) : option PromptsGetResult :=
  match ps with
  | [] => None
  | prompt :: rest =>
      if decide (prompt_name prompt = name)
      then Some (mkGetResult (Some (prompt_description prompt))
                             [mkMessage "user" (Text (prompt_content prompt))])
      else search_prompts name rest
  end.

(** The outer loop over the libraries. *)
Fixpoint search_libraries (name : string) (ls : list AgentLibrary) : option PromptsGetResult :=
  match ls with
  | [] => None
  | library :: rest =>
      match search_prompts name (prompts library) with
      | Some r => Some r
      | None => search_libraries name rest
      end
  end.

Section Engine.

(** [serde_json::from_value::<PromptsGetParams>] followed by the [?] that
    turns its error into a [JsonRpcError]: library code and a conversion
    that the guide does not show. *)
Variable from_value : Value -> Result PromptsGetParams JsonRpcError.

Definition handle_prompts_get (params : option Value) (state : McpServerState)
  : Result Value JsonRpcError :=
  match params with
  | None => Err invalid_params
  | Some v =>
      match from_value v with
      | Err e => Err e
      | Ok params =>
          match search_libraries (params_name params) (agent_libraries state) with
          | Some r => Ok (PromptsGetResult_to_value r)
          | None => Err (not_found (params_name params))
          end
      end
  end.

(** The handlers of [resources/list] and [resources/read] are not shown. *)
Variable handle_resources_list : option Value -> McpServerState -> Result Value JsonRpcError.
Variable handle_resources_read : option Value -> McpServerState -> Result Value JsonRpcError.

Definition cors_headers : list (string * string) :=
  [("Access-Control-Allow-Origin", "*");
   ("Access-Control-Allow-Methods", "POST, GET, OPTIONS");
   ("Access-Control-Allow-Headers", "Content-Type, Authorization")].

(** The [Ok(result) => ... , Err(error) => ...] match of every arm. *)
Definition respond (id : option Value) (r : Result Value JsonRpcError) : JsonRpcResponse :=
  match r with
  | Ok v => mkResponse "2.0" id (Some v) None
  | Err e => mkResponse "2.0" id None (Some e)
  end.

Definition method_not_found : JsonRpcError := mkError (-32601) "Method not found" None.

(** [handle_jsonrpc]. The guide writes out the arms of [initialize] and
    [prompts/list] and says that the other methods are implemented in the
    same way; they are the three remaining methods of the protocol. *)
Definition handle_jsonrpc (state : McpServerState) (request : JsonRpcRequest)
  : list (string * string) * JsonRpcResponse :=
  let response :=
    if decide (req_method request = "initialize") then
      respond (req_id request) (handle_initialize (req_params request) state)
    else if decide (req_method request = "prompts/list") then
      respond (req_id request) (handle_prompts_list (req_params request) state)
    else if decide (req_method request = "prompts/get") then
      respond (req_id request) (handle_prompts_get (req_params request) state)
    else if decide (req_method request = "resources/list") then
      respond (req_id request) (handle_resources_list (req_params request) state)
    else if decide (req_method request = "resources/read") then
      respond (req_id request) (handle_resources_read (req_params request) state)
    else
      mkResponse "2.0" (req_id request) None (Some method_not_found) in
  (cors_headers, response).

End Engine.

(** The object form of the [prompts/get] parameters, [{"name": ..}], as
    MCP clients send it. *)
Fixpoint field (k : string) (fields : list (string * Value)) : option Value :=
  match fields with
  | [] => None
  | (k', v) :: rest => if decide (k' = k) then Some v else field k rest
  end.

Definition params_of_object (v : Value) : Result PromptsGetParams JsonRpcError :=
  match v with
  | Object fields =>
      match field "name" fields with
      | Some (String n) =>
          Ok (mkGetParams n
                match field "arguments" fields with
                | Some Null | None => None
                | Some a => Some a
                end)
      | _ => Err invalid_params
      end
  | _ => Err invalid_params
  end.

End JsonRpc.

(** ** The loopback interface and the tokio runtime

    What the Rust code can observe of the operating system: which ports of
    127.0.0.1 have a live listener, and the tasks spawned on the runtime.
    [attempts] records every [TcpListener::bind] call, oldest first. Calls
    are taken one at a time: no other process binds a port in between.

    [tokio::spawn] does not run the future it is given: the future is queued
    and runs when the runtime polls it, which is a step of its own
    ([Registry.poll]). The futures spawned here have no await that can stay
    pending (a bind on the loopback interface answers at once), so a polled
    future is taken to run to its end. *)

Module Os.

Inductive Task : Type :=
| Scheduled (port : Z) (library : JsonRpc.AgentLibrary)
    (* the future spawned by start_repository_mcp_server, not yet polled:
       it will call start_mcp_server with this port and library *)
| Serving (port : Z) (library : JsonRpc.AgentLibrary)
    (* axum::serve runs on a bound listener, answering from [library] *)
| Finished.
    (* returned, or cancelled *)

Record World : Type := mkWorld {
  held : gset Z;
  attempts : list Z;
  tasks : list Task;
}.

Definition TcpListener := Z.
Definition JoinHandle := nat.

(** [TcpListener::bind("127.0.0.1:port")] *)
Definition bind (port : Z) (w : World) : Result TcpListener string * World :=
  if decide (port ∈ held w)
  then (Err "Address already in use",
        mkWorld (held w) (attempts w ++ [port]) (tasks w))
  else (Ok port,
        mkWorld ({[port]} ∪ held w) (attempts w ++ [port]) (tasks w)).

(** Dropping a listener closes its socket. *)
Definition drop (l : TcpListener) (w : World) : World :=
  mkWorld (held w ∖ {[l]}) (attempts w) (tasks w).

(** [tokio::spawn]: the task is added to the runtime in state [t] and its
    handle is returned; nothing of it has run yet. *)
Definition spawn (t : Task) (w : World) : JoinHandle * World :=
  (length (tasks w), mkWorld (held w) (attempts w) (tasks w ++ [t])).

(** The task of handle [h] has returned or has been cancelled. *)
Definition finish (h : JoinHandle) (w : World) : World :=
  mkWorld (held w) (attempts w) (<[h := Finished]> (tasks w)).


(** [JoinHandle::abort] asks the runtime to cancel the task of this handle:
    a future that has not been polled is dropped without running, a task
    that has returned is not affected. Nothing but that task is touched. The
    handles that exist are those returned by [spawn] to
    [start_repository_mcp_server]; the handle of a serve task is dropped
    where the task is spawned, so no abort names one. *)
Definition abort (h : JoinHandle) (w : World) : World :=
  match tasks w !! h with
  | Some (Scheduled _ _) => finish h w
  | _ => w
  end.

End Os.

(** ** Port search (RUST_MCP_SERVER.md, [find_available_port]) *)

Module PortAllocator.
Import Os.

Definition PORT_MIN : Z := 9500.
Definition PORT_END : Z := 9600.  (* exclusive, as in [9500..9600] *)

Definition exhausted : string := "No available ports in range 9500-9599".

(** The body of the [for] loop over the remaining candidates: the
    listener obtained by a successful probe is a temporary of the [if]
    condition and is dropped before [return Ok(port)]. *)
Fixpoint scan (candidates : list Z) (w : World) : Result Z string * World :=
  match candidates with
  | [] => (Err exhausted, w)
  | port :: rest =>
      match bind port w with
      | (Ok l, w1) => (Ok port, drop l w1)
      | (Err _, w1) => scan rest w1
      end
  end.

Definition range : list Z := seqZ PORT_MIN (PORT_END - PORT_MIN).

Definition find_available_port (w : World) : Result Z string * World :=
  scan range w.

End PortAllocator.

(** ** The registry of servers (Tauri command guide) *)

Module Registry.
Import Os PortAllocator JsonRpc.

Record McpServerHandle : Type := mkHandle {
  port : Z;
  handle : JoinHandle;
  repository_path : string;
}.


(** The future handed to [tokio::spawn], once the runtime runs it as the
    task of handle [h]. It awaits [start_mcp_server], which
    (RUST_MCP_SERVER.md) binds the listener, spawns [axum::serve] on it as a
    task of its own, whose handle it drops, and returns at once; the future
    then returns too. If the bind fails the future prints the error and
    returns. The call passes the port and the parsed library, where the
    guide's signature has the server state and an optional port: the port is
    taken as the one to bind and the library as what the serve task answers
    from. *)
Definition server_task (port : Z) (agent_library : AgentLibrary)
  (h : JoinHandle) (w : World) : World :=
  match bind port w with
  | (Ok _, w1) =>
      let '(_, w2) := spawn (Serving port agent_library) w1 in
      finish h w2
  | (Err _, w1) => finish h w1
  end.

(** The runtime polls the task of handle [h]. *)
Definition poll (h : JoinHandle) (w : World) : World :=
  match tasks w !! h with
  | Some (Scheduled port agent_library) => server_task port agent_library h w
  | _ => w
  end.

Section Commands.

(** Reads and parses [.agent_library] under the given path. *)
Variable parse_agent_library_internal : string -> Result AgentLibrary string.

Definition start_repository_mcp_server
  (repository_id repo_path : string)
  (servers : gmap string McpServerHandle) (w : World)
  : Result string string * gmap string McpServerHandle * World :=
  if decide (is_Some (servers !! repository_id)) then
    (Ok "Server already running", servers, w)
  else
    match find_available_port w with
    | (Err e, w1) => (Err e, servers, w1)
    | (Ok port, w1) =>
        match parse_agent_library_internal repo_path with
        | Err e => (Err e, servers, w1)
        | Ok agent_library =>
            let '(handle, w2) := spawn (Scheduled port agent_library) w1 in
            (Ok ("MCP server started on port " +:+ pretty port),
             <[repository_id := mkHandle port handle repo_path]> servers,
             w2)
        end
    end.

End Commands.

Definition stop_repository_mcp_server
  (repository_id : string)
  (servers : gmap string McpServerHandle) (w : World)
  : Result string string * gmap string McpServerHandle * World :=
  match servers !! repository_id with
  | Some server =>
      (Ok "Server stopped", delete repository_id servers, abort (handle server) w)
  | None =>
      (Err "Server not found", delete repository_id servers, w)
  end.


End Registry.

(** ** JavaScript string methods used by the stores

    Strings are byte strings. [toLowerCase] maps the ASCII capitals and
    keeps every other byte; the patterns it is compared with in
    [shouldAutoReload] are ASCII. *)

Module Js.

Definition lower_char (c : Ascii.ascii) : Ascii.ascii :=
  let n := Ascii.nat_of_ascii c in
  if ((65 <=? n) && (n <=? 90))%nat then Ascii.ascii_of_nat (n + 32) else c.

Fixpoint toLowerCase (s : string) : string :=
  match s with
  | EmptyString => EmptyString
  | String c rest => String (lower_char c) (toLowerCase rest)
  end.

(** [s.includes(pattern)] *)
Fixpoint includes (pattern s : string) : bool :=
  String.prefix pattern s ||
  match s with
  | EmptyString => false
  | String _ rest => includes pattern rest
  end.

(** [s.split(separator)[0]] for a separator that is not empty. *)
Fixpoint split_head (separator s : string) : string :=
  if String.prefix separator s then EmptyString
  else match s with
       | EmptyString => EmptyString
       | String c rest => String c (split_head separator rest)
       end.

(** [s.split('/').pop()] *)
Fixpoint split_pop (s : string) : string :=
  match s with
  | EmptyString => EmptyString
  | String c rest =>
      if includes "/" rest then split_pop rest
      else if decide (c = "/"%char) then rest
      else s
  end.

(** [a || b] on strings: the empty string is falsy. *)
Definition or_else (a b : string) : string :=
  if decide (a = "") then b else a.

(** [Array.prototype.findIndex], [None] for -1. *)
Fixpoint findIndex {A} (f : A -> bool) (l : list A) : option nat :=
  match l with
  | [] => None
  | x :: rest => if f x then Some 0%nat else S <$> findIndex f rest
  end.

(** [Array.prototype.slice(0, n)] *)
Definition slice0 {A} (n : nat) (l : list A) : list A := take n l.

End Js.

(** ** src/lib/stores/config.ts *)

Module Config.

Inductive McpStatus : Type := running | stopped | error.

Record McpServerConfig : Type := mkMcp {
  mcp_port : Z;
  mcp_status : McpStatus;
}.

Record RepositoryConfig : Type := mkRepo {
  id : string;
  name : string;
  path : string;
  is_active : bool;
  last_updated : string;
  mcp_server : option McpServerConfig;
}.

Record AppConfig : Type := mkConfig {
  repositories : list RepositoryConfig;
  last_opened_repository : option string;
  theme : string;
  auto_start_servers : bool;
}.

(** The initial value of the [appConfig] store. *)
Definition appConfig_initial : AppConfig := mkConfig [] None "light" true.

Definition with_repositories (config : AppConfig) (rs : list RepositoryConfig) : AppConfig :=
  mkConfig rs (last_opened_repository config) (theme config) (auto_start_servers config).

(** The callback [addRepository] passes to [appConfig.update]. *)
Definition addRepository_update (repository : RepositoryConfig) (config : AppConfig) : AppConfig :=
  let existingIndex :=
    Js.findIndex (fun r => bool_decide (id r = id repository)) (repositories config) in
  let updatedRepositories :=
    match existingIndex with
    | Some i => <[i := repository]> (repositories config)
    | None => repositories config ++ [repository]
    end in
  with_repositories config updatedRepositories.

(** The callback of [removeRepository]. *)
Definition removeRepository_update (repositoryId : string) (config : AppConfig) : AppConfig :=
  with_repositories config
    (filter (fun r => id r ≠ repositoryId) (repositories config)).

Section Api.

Variable Backend : Type.
Variable add_repository_config : RepositoryConfig -> Backend -> Result unit string * Backend.

(** [ConfigAPI.addRepository]: the store is updated once the backend
    command has succeeded; its error is thrown again. *)
Definition addRepository (repository : RepositoryConfig) (s : AppConfig * Backend)
  : Result unit string * (AppConfig * Backend) :=
  match add_repository_config repository (snd s) with
  | (Ok _, b) => (Ok (), (addRepository_update repository (fst s), b))
  | (Err e, b) => (Err e, (fst s, b))
  end.

End Api.

End Config.

(** ** src/lib/stores/fileWatcher.ts *)

Module FileWatcher.
Import Config.

Inductive ChangeType : Type := Created | Modified | Deleted | Renamed.

Record FileChangeEvent : Type := mkEvent {
  repository_id : string;
  file_path : string;
  change_type : ChangeType;
  timestamp : string;
}.

Record WatchedRepository : Type := mkWatched {
  watched_id : string;
  is_watching : bool;
  last_change : option FileChangeEvent;
}.

Inductive NotificationType : Type := success | error | info.

Record Notification : Type := mkNotification {
  type : NotificationType;
  message : string;
}.

(** The Svelte stores the watcher works on. [autoReload_subscribers] are
    the callbacks subscribed to [autoReloadEnabled] (line 63), oldest first;
    each one is determined by the event payload it has captured. *)
Record Stores : Type := mkStores {
  fileChangeEvents : list FileChangeEvent;
  watchedRepositories : list WatchedRepository;
  autoReloadEnabled : bool;
  autoReload_subscribers : list FileChangeEvent;
  appConfig : AppConfig;
  notification : option Notification;
}.

Definition stores_initial : Stores :=
  mkStores [] [] true [] appConfig_initial None.

(** A call of [reloadAgentLibrary] suspended at an [await]. *)
Inductive Pending : Type :=
| AwaitConfig (repositoryId : string)
| AwaitReload (repositoryId repoPath : string).

(** The backend command the watcher sends with [invoke]. *)
Inductive Call : Type :=
| call_reload_agent_library (repositoryId repositoryPath : string).

Definition importantFiles : list string :=
  ["agent_index.yml"; "agent_index.yaml"; ".md"].

Definition shouldAutoReload (event : FileChangeEvent) : bool :=
  existsb
    (fun pattern =>
       Js.includes (Js.toLowerCase pattern) (Js.toLowerCase (file_path event)))
    importantFiles.

Definition changeTypeText (c : ChangeType) : string :=
  match c with
  | Created => "作成"
  | Modified => "変更"
  | Deleted => "削除"
  | Renamed => "名前変更"
  end.

Definition set_notification (n : Notification) (s : Stores) : Stores :=
  mkStores (fileChangeEvents s) (watchedRepositories s) (autoReloadEnabled s)
           (autoReload_subscribers s) (appConfig s) (Some n).

Definition set_appConfig (c : AppConfig) (s : Stores) : Stores :=
  mkStores (fileChangeEvents s) (watchedRepositories s) (autoReloadEnabled s)
           (autoReload_subscribers s) c (notification s).

Definition showChangeNotification (event : FileChangeEvent) (s : Stores) : Stores :=
  let fileName := Js.or_else (Js.split_pop (file_path event)) (file_path event) in
  if shouldAutoReload event then
    set_notification
      (mkNotification info
         (fileName +:+ " が" +:+ changeTypeText (change_type event) +:+ "されました")) s
  else s.

Definition reload_succeeded : Notification :=
  mkNotification success "設定ファイルの変更を検知し、自動更新しました".

Definition reload_failed (repositoryId err : string) : Notification :=
  mkNotification error
    ("自動更新に失敗しました (リポジトリ: " +:+ repositoryId +:+ "): " +:+ err).

Section Listener.

(** The Tauri backend, seen through the command the watcher invokes. *)
Variable Backend : Type.
Variable reload_agent_library :
  string -> string -> Backend -> Result string string * Backend.

(** [ConfigAPI.getCurrentConfig], seen from the watcher: given the value of
    the [appConfig] store and the backend, it answers with a configuration
    or throws, and leaves a value in the store. *)
Variable getCurrentConfig :
  AppConfig -> Backend -> Result AppConfig string * (AppConfig * Backend).

(** The page: its stores, the suspended [reloadAgentLibrary] calls (oldest
    first), the commands sent so far (oldest first) and the backend. *)
Record App : Type := mkApp {
  stores : Stores;
  in_flight : list Pending;
  sent : list Call;
  backend : Backend;
}.

Definition app_initial (b : Backend) : App := mkApp stores_initial [] [] b.

(** [invoke('reload_agent_library', ..)] and the [await] on it. *)
Definition invoke_reload (repositoryId repoPath : string) (app : App) : App :=
  mkApp (stores app)
        (in_flight app ++ [AwaitReload repositoryId repoPath])
        (sent app ++ [call_reload_agent_library repositoryId repoPath])
        (backend app).

(** [reloadAgentLibrary] up to its first [await]. A path that is missing
    or empty is falsy and sends the call to the configuration. *)
Definition reloadAgentLibrary (repositoryId : string) (repositoryPath : option string)
  (app : App) : App :=
  match repositoryPath with
  | Some repoPath =>
      if decide (repoPath = "")
      then mkApp (stores app) (in_flight app ++ [AwaitConfig repositoryId])
                 (sent app) (backend app)
      else invoke_reload repositoryId repoPath app
  | None =>
      mkApp (stores app) (in_flight app ++ [AwaitConfig repositoryId])
            (sent app) (backend app)
  end.

(** The rest of call number [k] once what it awaits has answered.
    [AwaitConfig]: the answer of [ConfigAPI.getCurrentConfig], then the
    lookup of the repository and the [invoke].
    [AwaitReload]: the answer of [reload_agent_library]. Every error ends in
    the [catch] block: nothing is thrown to the caller. *)
Definition resume (k : nat) (app : App) : App :=
  match in_flight app !! k with
  | None => app
  | Some (AwaitConfig repositoryId) =>
      let rest := delete k (in_flight app) in
      let '(answer, (stored, b)) :=
        getCurrentConfig (appConfig (stores app)) (backend app) in
      let s1 := set_appConfig stored (stores app) in
      match answer with
      | Err e =>
          mkApp (set_notification (reload_failed repositoryId e) s1)
                rest (sent app) b
      | Ok config =>
          match List.find (fun r => bool_decide (id r = repositoryId))
                          (repositories config) with
          | None =>
              mkApp (set_notification
                       (reload_failed repositoryId
                          ("Error: Repository " +:+ repositoryId +:+ " not found")) s1)
                    rest (sent app) b
          | Some repository =>
              invoke_reload repositoryId (path repository)
                            (mkApp s1 rest (sent app) b)
          end
      end
  | Some (AwaitReload repositoryId repoPath) =>
      let rest := delete k (in_flight app) in
      match reload_agent_library repositoryId repoPath (backend app) with
      | (Ok _, b) =>
          mkApp (set_notification reload_succeeded (stores app)) rest (sent app) b
      | (Err e, b) =>
          mkApp (set_notification (reload_failed repositoryId e) (stores app))
                rest (sent app) b
      end
  end.

(** The callback subscribed to [autoReloadEnabled] for one event. *)
Definition auto_reload_callback (payload : FileChangeEvent) (enabled : bool) (app : App) : App :=
  if enabled && shouldAutoReload payload then
    let repositoryPath := Js.split_head "/.agent_library" (file_path payload) in
    reloadAgentLibrary (repository_id payload) (Some repositoryPath) app
  else app.

Definition on_stores (f : Stores -> Stores) (app : App) : App :=
  mkApp (f (stores app)) (in_flight app) (sent app) (backend app).

(** [fileChangeEvents.update(..)] of the listener. *)
Definition push_event (payload : FileChangeEvent) (s : Stores) : Stores :=
  let newEvents := payload :: fileChangeEvents s in
  mkStores (Js.slice0 100 newEvents) (watchedRepositories s) (autoReloadEnabled s)
           (autoReload_subscribers s) (appConfig s) (notification s).

(** [watchedRepositories.update(..)] of the listener. *)
Definition touch_watched (payload : FileChangeEvent) (s : Stores) : Stores :=
  mkStores (fileChangeEvents s)
           (map (fun repo =>
                   if decide (watched_id repo = repository_id payload)
                   then mkWatched (watched_id repo) (is_watching repo) (Some payload)
                   else repo)
                (watchedRepositories s))
           (autoReloadEnabled s) (autoReload_subscribers s) (appConfig s)
           (notification s).

(** [autoReloadEnabled.subscribe(callback)]: the callback is registered and
    called at once with the current value. *)
Definition subscribe_auto_reload (payload : FileChangeEvent) (app : App) : App :=
  let s := stores app in
  let registered :=
    mkStores (fileChangeEvents s) (watchedRepositories s) (autoReloadEnabled s)
             (autoReload_subscribers s ++ [payload]) (appConfig s) (notification s) in
  auto_reload_callback payload (autoReloadEnabled s)
    (mkApp registered (in_flight app) (sent app) (backend app)).

(** The listener of the [file-change] event (lines 43 to 73). *)
Definition on_file_change (payload : FileChangeEvent) (app : App) : App :=
  let app1 := on_stores (push_event payload) app in
  let app2 := on_stores (touch_watched payload) app1 in
  let app3 := subscribe_auto_reload payload app2 in
  on_stores (showChangeNotification payload) app3.

(** [toggleAutoReload]: the store changes value, so every subscriber runs
    with the new value, in the order of subscription. *)
Definition toggleAutoReload (app : App) : App :=
  let s := stores app in
  let enabled := negb (autoReloadEnabled s) in
  let flipped :=
    mkStores (fileChangeEvents s) (watchedRepositories s) enabled
             (autoReload_subscribers s) (appConfig s) (notification s) in
  fold_left (fun a payload => auto_reload_callback payload enabled a)
            (autoReload_subscribers s)
            (mkApp flipped (in_flight app) (sent app) (backend app)).

(** [clearChangeHistory] *)
Definition clearChangeHistory (app : App) : App :=
  on_stores
    (fun s => mkStores [] (watchedRepositories s) (autoReloadEnabled s)
                       (autoReload_subscribers s) (appConfig s) (notification s))
    app.

(** What can happen to the page, one thing at a time. *)
Inductive Action : Type :=
| Deliver (payload : FileChangeEvent)
| Toggle
| Clear
| Resume (k : nat).

Definition step (app : App) (a : Action) : App :=
  match a with
  | Deliver payload => on_file_change payload app
  | Toggle => toggleAutoReload app
  | Clear => clearChangeHistory app
  | Resume k => resume k app
  end.

Definition run (actions : list Action) (app : App) : App :=
  fold_left step actions app.

(** The [reload_agent_library] commands sent so far. *)
Definition reloads (app : App) : list (string * string) :=
  map (fun c => match c with call_reload_agent_library i p => (i, p) end)
      (sent app).

End Listener.

Arguments mkApp {Backend}.
Arguments stores {Backend}.
Arguments in_flight {Backend}.
Arguments sent {Backend}.
Arguments backend {Backend}.
Arguments app_initial {Backend}.
Arguments invoke_reload {Backend}.
Arguments reloadAgentLibrary {Backend}.
Arguments resume {Backend}.
Arguments auto_reload_callback {Backend}.
Arguments on_stores {Backend}.
Arguments subscribe_auto_reload {Backend}.
Arguments on_file_change {Backend}.
Arguments toggleAutoReload {Backend}.
Arguments clearChangeHistory {Backend}.
Arguments step {Backend}.
Arguments run {Backend}.
Arguments reloads {Backend}.

End FileWatcher.

(** ** The backend behind the watcher's [reload_agent_library] *)

Module Backend.
Import Os JsonRpc Registry.

Record State : Type := mkBackend {
  servers : gmap string McpServerHandle;
  world : World;
}.

(** The library a serve task answers from, if the task listens on [p]. *)
Definition answers_on (p : Z) (t : Task) : option AgentLibrary :=
  match t with
  | Serving q library => if decide (q = p) then Some library else None
  | _ => None
  end.

(** The library served on port [p], if a serve task listens there. *)
Definition serving_on (p : Z) (w : World) : option AgentLibrary :=
  head (omap (answers_on p) (tasks w)).

(** The library served for a repository: the one answered from on the port
    the registry has for it, if a serve task listens there. *)
Definition served (repositoryId : string) (b : State) : option AgentLibrary :=
  match servers b !! repositoryId with
  | Some server => serving_on (port server) (world b)
  | None => None
  end.

(** Modelled from the spec: a serve task that listens on [p] answers from
    [library] from now on; its listener and its port are kept. *)
Definition swap_task (p : Z) (library : AgentLibrary) (t : Task) : Task :=
  match t with
  | Serving q _ => if decide (q = p) then Serving q library else t
  | _ => t
  end.

(** Modelled from the spec: the swap of the snapshot the live instance on
    port [p] answers from (section 4.4). *)
Definition swap (p : Z) (library : AgentLibrary) (w : World) : World :=
  mkWorld (held w) (attempts w) (swap_task p library <$> tasks w).

Section Reload.

Variable parse_agent_library_internal : string -> Result AgentLibrary string.
Variable reply : string.

(** Modelled from the spec: the Rust command [reload_agent_library], which
    [fileWatcher.ts] invokes, is not among the sources. Section 4.4: the
    library is parsed again at the repository's path; a parse failure
    leaves the served snapshot untouched and is reported to the caller; a
    success swaps the snapshot of the live instance of that repository, if
    there is one, and is a no-op otherwise. [reply] is the text of the
    successful answer. *)
Definition reload_agent_library (repositoryId repositoryPath : string) (b : State)
  : Result string string * State :=
  match parse_agent_library_internal repositoryPath with
  | Err e => (Err e, b)
  | Ok library =>
      (Ok reply,
       match servers b !! repositoryId with
       | Some server => mkBackend (servers b) (swap (port server) library (world b))
       | None => b
       end)
  end.

End Reload.

End Backend.

(** ** Server start-up (RUST_MCP_SERVER.md, [start_mcp_server]) *)

Module AxumServer.
Import Os PortAllocator JsonRpc.

(** The loopback interface together with the [axum::serve] tasks spawned
    by [start_mcp_server]: the port each one listens on and the state it
    answers from, oldest first. *)
Record Runtime : Type := mkRuntime {
  os : World;
  serving : list (Z * McpServerState);
}.

(** [start_mcp_server(state, port)]. A given port is used as it is; without
    one the range is searched. The listener is bound and moved into the
    spawned task. Port 0, for which the system picks a port, is not
    modelled. *)
Definition start_mcp_server (state : McpServerState) (port : option Z) (r : Runtime)
  : Result Z string * Runtime :=
  let found :=
    match port with
    | Some p => (Ok p, os r)
    | None => find_available_port (os r)
    end in
  match found with
  | (Err e, w1) => (Err e, mkRuntime w1 (serving r))
  | (Ok server_port, w1) =>
      match bind server_port w1 with
      | (Err e, w2) => (Err e, mkRuntime w2 (serving r))
      | (Ok _, w2) => (Ok server_port, mkRuntime w2 (serving r ++ [(server_port, state)]))
      end
  end.

End AxumServer.

(** ** Sequences of registry commands *)

Module RegistryRun.
Import Os JsonRpc Registry.

(** What happens to the registry and the runtime: the two commands, and
    the runtime polling a task. *)
Inductive Command : Type :=
| Start (repository_id repo_path : string)
| Stop (repository_id : string)
| Poll (h : JoinHandle).

Section Run.

Variable parse_agent_library_internal : string -> Result AgentLibrary string.

(** One command, its answer dropped. *)
Definition exec (s : gmap string McpServerHandle * World) (c : Command)
  : gmap string McpServerHandle * World :=
  match c with
  | Start repository_id repo_path =>
      let '(_, servers, w) :=
        start_repository_mcp_server parse_agent_library_internal
          repository_id repo_path s.1 s.2 in
      (servers, w)
  | Stop repository_id =>
      let '(_, servers, w) := stop_repository_mcp_server repository_id s.1 s.2 in
      (servers, w)
  | Poll h => (s.1, poll h s.2)
  end.

Definition run (commands : list Command) (s : gmap string McpServerHandle * World)
  : gmap string McpServerHandle * World :=
  fold_left exec commands s.

End Run.


End RegistryRun.

(** ** Parsing a library from disk (Tauri command guide) *)

Module LibraryParser.

(** MCP_PROTOCOL.md *)
Record McpEndpoint : Type := mkEndpoint {
  endpoint_id : string;
  label : string;
  endpoint_description : string;
  prompt_file : string;
  endpoint_category : string;
}.

Record AgentIndex : Type := mkIndex {
  index_name : string;
  index_description : string;
  mcp_endpoints : list McpEndpoint;
}.

Record Prompt : Type := mkPrompt {
  id : string;
  title : string;
  description : string;
  category : string;
  content : string;
}.

Record AgentLibrary : Type := mkLibrary {
  name : string;
  library_description : string;
  prompts : list Prompt;
}.

Record RepositoryInfo : Type := mkInfo {
  info_name : string;
  info_description : string;
  prompt_count : nat;
  categories : list string;
}.

(** What the commands ask of the file system. *)
Record Fs : Type := mkFs {
  exists_ : string -> bool;
  is_dir : string -> bool;
  is_file : string -> bool;
  read_to_string : string -> Result string string;
}.

Definition ends_with_slash (s : string) : bool :=
  String.prefix "/" (String.rev s).

(** [Path::join] on Unix: an absolute component replaces the path. *)
Definition join (base component : string) : string :=
  if String.prefix "/" component then component
  else if decide (base = "") then component
  else if ends_with_slash base then base +:+ component
  else base +:+ "/" +:+ component.

Section Parser.

Variable fs : Fs.

(** [serde_yaml::from_str::<AgentIndex>], its error as text. *)
Variable from_str : string -> Result AgentIndex string.

(** The loop over the endpoints: an endpoint whose file does not exist is
    skipped; a file that cannot be read gives the empty content. *)
Fixpoint load_prompts (repo_path : string) (endpoints : list McpEndpoint) : list Prompt :=
  match endpoints with
  | [] => []
  | endpoint :: rest =>
      let prompt_path := join (join repo_path ".agent_library") (prompt_file endpoint) in
      if exists_ fs prompt_path then
        let content :=
          match read_to_string fs prompt_path with
          | Ok text => text
          | Err _ => ""
          end in
        mkPrompt (endpoint_id endpoint) (label endpoint) (endpoint_description endpoint)
                 (endpoint_category endpoint) content
        :: load_prompts repo_path rest
      else load_prompts repo_path rest
  end.

Definition parse_agent_library (repo_path : string) : Result AgentLibrary string :=
  let agent_index_path := join repo_path ".agent_library/agent_index.yml" in
  if negb (exists_ fs agent_index_path) then Err "agent_index.yml not found"
  else
    match read_to_string fs agent_index_path with
    | Err e => Err ("Failed to read agent_index.yml: " +:+ e)
    | Ok content =>
        match from_str content with
        | Err e => Err ("Failed to parse YAML: " +:+ e)
        | Ok agent_index =>
            Ok (mkLibrary (index_name agent_index) (index_description agent_index)
                          (load_prompts repo_path (mcp_endpoints agent_index)))
        end
    end.

Definition validate_repository_path (path : string) : Result bool string :=
  let agent_library_path := join path ".agent_library" in
  let agent_index_path := join agent_library_path "agent_index.yml" in
  Ok (is_dir fs agent_library_path && is_file fs agent_index_path).

(** [get_repository_info]. The categories pass through a [HashSet], whose
    order of iteration is not specified: [elements] is one such order. *)
Definition get_repository_info (path : string) : Result RepositoryInfo string :=
  let agent_index_path := join path ".agent_library/agent_index.yml" in
  match read_to_string fs agent_index_path with
  | Err e => Err ("Failed to read agent_index.yml: " +:+ e)
  | Ok content =>
      match from_str content with
      | Err e => Err ("Failed to parse YAML: " +:+ e)
      | Ok agent_index =>
          Ok (mkInfo (index_name agent_index) (index_description agent_index)
                     (length (mcp_endpoints agent_index))
                     (elements (list_to_set (endpoint_category <$> mcp_endpoints agent_index)
                                : gset string)))
      end
  end.

End Parser.

End LibraryParser.

(** ** More of src/lib/stores/config.ts *)

Module ConfigApi.
Import Config.

(** The callback of [updateMcpServerStatus]; [now] is
    [new Date().toISOString()]. *)
Definition updateMcpServerStatus_update
  (repositoryId : string) (port : Z) (status : McpStatus) (now : string)
  (config : AppConfig) : AppConfig :=
  let updatedRepositories :=
    map (fun r =>
           if decide (id r = repositoryId)
           then mkRepo (id r) (name r) (path r) (is_active r) now
                       (Some (mkMcp port status))
           else r)
        (repositories config) in
  with_repositories config updatedRepositories.

(** [createRepositoryConfig] *)
Definition createRepositoryConfig (id name path now : string) : RepositoryConfig :=
  mkRepo id name path true now None.

Section Api.

Variable Backend : Type.
Variable save_app_config : AppConfig -> Backend -> Result unit string * Backend.
Variable remove_repository_config : string -> Backend -> Result bool string * Backend.
Variable update_repository_mcp_status :
  string -> Z -> McpStatus -> Backend -> Result unit string * Backend.

(** [ConfigAPI.saveConfig] *)
Definition saveConfig (config : AppConfig) (s : AppConfig * Backend)
  : Result unit string * (AppConfig * Backend) :=
  match save_app_config config s.2 with
  | (Ok _, b) => (Ok (), (config, b))
  | (Err e, b) => (Err e, (s.1, b))
  end.

(** [ConfigAPI.removeRepository] *)
Definition removeRepository (repositoryId : string) (s : AppConfig * Backend)
  : Result bool string * (AppConfig * Backend) :=
  match remove_repository_config repositoryId s.2 with
  | (Ok removed, b) =>
      (Ok removed,
       (if removed then removeRepository_update repositoryId s.1 else s.1, b))
  | (Err e, b) => (Err e, (s.1, b))
  end.

(** [ConfigAPI.removeRepositoryWithConfirmation]; [confirmed] is the answer
    to the [confirm] dialog. *)
Definition removeRepositoryWithConfirmation
  (repositoryId repositoryName : string) (confirmed : bool) (s : AppConfig * Backend)
  : Result bool string * (AppConfig * Backend) :=
  if negb confirmed then (Ok false, s)
  else removeRepository repositoryId s.

(** [ConfigAPI.updateMcpServerStatus] *)
Definition updateMcpServerStatus
  (repositoryId : string) (port : Z) (status : McpStatus) (now : string)
  (s : AppConfig * Backend)
  : Result unit string * (AppConfig * Backend) :=
  match update_repository_mcp_status repositoryId port status s.2 with
  | (Ok _, b) =>
      (Ok (), (updateMcpServerStatus_update repositoryId port status now s.1, b))
  | (Err e, b) => (Err e, (s.1, b))
  end.

End Api.

End ConfigApi.

(** ** More of src/lib/stores/fileWatcher.ts: watching repositories *)

Module Watching.
Import Config FileWatcher.

(** The double quote of the messages (character 34). *)
Definition quote : string := String.String "034"%char EmptyString.

Definition watching_started (repositoryId : string) : Notification :=
  mkNotification info
    ("リポジトリ " +:+ quote +:+ repositoryId +:+ quote +:+ " のファイル監視を開始しました").

Definition watching_not_started (repositoryId err : string) : Notification :=
  mkNotification error
    ("ファイル監視の開始に失敗しました (リポジトリ: " +:+ repositoryId +:+ "): " +:+ err).

Definition watching_stopped (repositoryId : string) : Notification :=
  mkNotification info
    ("リポジトリ " +:+ quote +:+ repositoryId +:+ quote +:+ " のファイル監視を停止しました").

Definition watching_not_stopped (repositoryId err : string) : Notification :=
  mkNotification error
    ("ファイル監視の停止に失敗しました (リポジトリ: " +:+ repositoryId +:+ "): " +:+ err).

Definition set_watched (l : list WatchedRepository) (s : Stores) : Stores :=
  mkStores (fileChangeEvents s) l (autoReloadEnabled s)
           (autoReload_subscribers s) (appConfig s) (notification s).

(** The callback [startWatchingRepository] passes to
    [watchedRepositories.update]: the entry of the repository is replaced by
    a fresh one, or a fresh one is pushed. *)
Definition start_update (repositoryId : string) (repos : list WatchedRepository)
  : list WatchedRepository :=
  let existingIndex :=
    Js.findIndex (fun r => bool_decide (watched_id r = repositoryId)) repos in
  let watchedRepo := mkWatched repositoryId true None in
  match existingIndex with
  | Some i => <[i := watchedRepo]> repos
  | None => repos ++ [watchedRepo]
  end.

(** The callback of [stopWatchingRepository]. *)
Definition stop_update (repositoryId : string) (repos : list WatchedRepository)
  : list WatchedRepository :=
  map (fun repo =>
         if decide (watched_id repo = repositoryId)
         then mkWatched (watched_id repo) false (last_change repo)
         else repo)
      repos.

Section Api.

Variable Backend : Type.
Variable start_watching_repository :
  string -> string -> Backend -> Result unit string * Backend.
Variable stop_watching_repository : string -> Backend -> Result unit string * Backend.
Variable get_watched_repositories : Backend -> Result (list string) string * Backend.

(** [startWatchingRepository], from the [invoke] to its answer. *)
Definition startWatchingRepository (repositoryId repositoryPath : string)
  (app : App Backend) : Result unit string * App Backend :=
  match start_watching_repository repositoryId repositoryPath (backend app) with
  | (Ok _, b) =>
      (Ok (),
       mkApp (set_notification (watching_started repositoryId)
                (set_watched (start_update repositoryId
                                (watchedRepositories (stores app)))
                             (stores app)))
             (in_flight app) (sent app) b)
  | (Err e, b) =>
      (Err e,
       mkApp (set_notification (watching_not_started repositoryId e) (stores app))
             (in_flight app) (sent app) b)
  end.

(** [stopWatchingRepository] *)
Definition stopWatchingRepository (repositoryId : string)
  (app : App Backend) : Result unit string * App Backend :=
  match stop_watching_repository repositoryId (backend app) with
  | (Ok _, b) =>
      (Ok (),
       mkApp (set_notification (watching_stopped repositoryId)
                (set_watched (stop_update repositoryId
                                (watchedRepositories (stores app)))
                             (stores app)))
             (in_flight app) (sent app) b)
  | (Err e, b) =>
      (Err e,
       mkApp (set_notification (watching_not_stopped repositoryId e) (stores app))
             (in_flight app) (sent app) b)
  end.

(** [getWatchedRepositories]: an error is logged and becomes the empty
    list. *)
Definition getWatchedRepositories (b : Backend) : list string * Backend :=
  match get_watched_repositories b with
  | (Ok ids, b') => (ids, b')
  | (Err _, b') => ([], b')
  end.

(** [getRepositoryWatchStatus] *)
Definition getRepositoryWatchStatus (repositoryId : string) (b : Backend)
  : bool * Backend :=
  let '(watchedRepos, b') := getWatchedRepositories b in
  (bool_decide (repositoryId ∈ watchedRepos), b').

End Api.

End Watching.

(** ** Statistics of the change history (fileWatcher.ts, [getChangeEventStats]) *)

Module ChangeStats.
Import FileWatcher.

Record Stats : Type := mkStats {
  total : nat;
  created : nat;
  modified : nat;
  deleted : nat;
  renamed : nat;
  byRepository : gmap string nat;
}.

(** The names a fresh object literal inherits. For a repository id among
    them [byRepository[id]] does not start out undefined, and the counter
    of that id is not a number; the model is for the other ids. *)
Definition inherited : list string :=
  ["constructor"; "toString"; "toLocaleString"; "valueOf"; "hasOwnProperty";
   "isPrototypeOf"; "propertyIsEnumerable"; "__proto__"; "__defineGetter__";
   "__defineSetter__"; "__lookupGetter__"; "__lookupSetter__"].

(** The body of the [forEach]. *)
Definition count_event (stats : Stats) (event : FileChangeEvent) : Stats :=
  let by_type :=
    match change_type event with
    | Created =>
        mkStats (total stats) (S (created stats)) (modified stats) (deleted stats)
                (renamed stats) (byRepository stats)
    | Modified =>
        mkStats (total stats) (created stats) (S (modified stats)) (deleted stats)
                (renamed stats) (byRepository stats)
    | Deleted =>
        mkStats (total stats) (created stats) (modified stats) (S (deleted stats))
                (renamed stats) (byRepository stats)
    | Renamed =>
        mkStats (total stats) (created stats) (modified stats) (deleted stats)
                (S (renamed stats)) (byRepository stats)
    end in
  mkStats (total by_type) (created by_type) (modified by_type) (deleted by_type)
          (renamed by_type)
          (<[repository_id event :=
               S (default 0%nat (byRepository by_type !! repository_id event))]>
             (byRepository by_type)).

Definition getChangeEventStats (events : list FileChangeEvent) : Stats :=
  fold_left count_event events (mkStats (length events) 0 0 0 0 ∅).

End ChangeStats.

(** ** The theme store (second module of fileWatcher.ts) *)

Module ThemeStore.

Inductive Theme : Type := dark | light | system.

(** The effective theme: ['dark' | 'light']. *)
Inductive Shade : Type := shade_dark | shade_light.

Definition theme_text (t : Theme) : string :=
  match t with
  | dark => "dark"
  | light => "light"
  | system => "system"
  end.

(** The page as the theme code sees it, in the webview ([browser] is true
    and [window.matchMedia] exists): the two stores, the [data-theme]
    attribute of the document, the [theme] item of the local storage,
    whether [initializeTheme] has subscribed its callback and its media
    listener, and what the system prefers. *)
Record Page : Type := mkPage {
  theme : Theme;
  currentTheme : Shade;
  data_theme : option Shade;
  stored : option string;
  initialized : bool;
  prefers_dark : bool;
}.

(** The page when the module is loaded, with what the local storage holds. *)
Definition loaded (item : option string) (prefers : bool) : Page :=
  mkPage dark shade_dark None item false prefers.

Definition updateDocumentTheme (themeValue : Theme) (p : Page) : Page :=
  let actualTheme :=
    match themeValue with
    | system => if prefers_dark p then shade_dark else shade_light
    | dark => shade_dark
    | light => shade_light
    end in
  mkPage (theme p) actualTheme (Some actualTheme) (stored p) (initialized p)
         (prefers_dark p).

(** The callback [initializeTheme] subscribes to the [theme] store. *)
Definition on_theme (value : Theme) (p : Page) : Page :=
  updateDocumentTheme value
    (mkPage (theme p) (currentTheme p) (data_theme p) (Some (theme_text value))
            (initialized p) (prefers_dark p)).

Definition theme_eqb (a b : Theme) : bool :=
  match a, b with
  | dark, dark | light, light | system, system => true
  | _, _ => false
  end.

(** [theme.set(value)]: subscribers run when the value changes. *)
Definition theme_set (value : Theme) (p : Page) : Page :=
  if theme_eqb value (theme p) then p
  else
    let changed := mkPage value (currentTheme p) (data_theme p) (stored p)
                          (initialized p) (prefers_dark p) in
    if initialized p then on_theme value changed else changed.

(** [savedTheme && ['dark', 'light', 'system'].includes(savedTheme)] *)
Definition saved_theme (item : option string) : option Theme :=
  match item with
  | Some text =>
      if decide (text = "dark") then Some dark
      else if decide (text = "light") then Some light
      else if decide (text = "system") then Some system
      else None
  | None => None
  end.

Definition initializeTheme (p : Page) : Page :=
  let p1 :=
    match saved_theme (stored p) with
    | Some savedTheme => theme_set savedTheme p
    | None => p
    end in
  let currentThemeValue := theme p1 in
  let p2 := updateDocumentTheme currentThemeValue p1 in
  let p3 := mkPage (theme p2) (currentTheme p2) (data_theme p2) (stored p2) true
                   (prefers_dark p2) in
  on_theme (theme p3) p3.

(** The system setting changes; the media listener runs if it is
    registered. *)
Definition system_changes (prefers : bool) (p : Page) : Page :=
  let p1 := mkPage (theme p) (currentTheme p) (data_theme p) (stored p)
                   (initialized p) prefers in
  if initialized p then
    match theme p1 with
    | system => updateDocumentTheme system p1
    | _ => p1
    end
  else p1.

Definition toggleTheme (p : Page) : Page :=
  let newTheme :=
    match theme p with
    | dark => light
    | light => system
    | system => dark
    end in
  theme_set newTheme p.

Definition setTheme (newTheme : Theme) (p : Page) : Page := theme_set newTheme p.

Inductive Action : Type :=
| Initialize
| Toggle
| Set_ (newTheme : Theme)
| System (prefers : bool).

Definition step (p : Page) (a : Action) : Page :=
  match a with
  | Initialize => initializeTheme p
  | Toggle => toggleTheme p
  | Set_ newTheme => setTheme newTheme p
  | System prefers => system_changes prefers p
  end.

Definition run (actions : list Action) (p : Page) : Page := fold_left step actions p.

End ThemeStore.

(** * Properties *)

(** ** The string methods *)

Module JsFacts.

Lemma append_cons (c : ascii) (a b : string) :
  String c a +:+ b = String c (a +:+ b).
Proof. reflexivity. Qed.

Lemma append_empty (b : string) : "" +:+ b = b.
Proof. reflexivity. Qed.

Lemma prefix_app (p s : string) :
  String.prefix p s = true <-> exists rest, s = p +:+ rest.
Proof.
  revert s. induction p as [|c p IH]; intros s.
  - simpl. split; [|by destruct s]. intros _. by exists s.
  - destruct s as [|d s]; simpl.
    + split; [done|]. intros (rest & Hrest). by rewrite append_cons in Hrest.
    + destruct (Ascii.ascii_dec c d) as [->|Hne].
      * rewrite IH. split; intros (rest & Hrest); exists rest;
          rewrite append_cons in *; congruence.
      * split; [done|]. intros (rest & Hrest).
        rewrite append_cons in Hrest. congruence.
Qed.

(** [includes] is the substring test. *)
Lemma includes_substring (pattern s : string) :
  Js.includes pattern s = true <-> exists before after, s = before +:+ pattern +:+ after.
Proof.
  induction s as [|c s IH].
  - cbn [Js.includes]. rewrite orb_false_r, prefix_app. split.
    + intros (rest & Hrest). by exists "", rest.
    + intros (before & after & Hs). destruct before as [|d before].
      * by exists after.
      * by rewrite append_cons in Hs.
  - cbn [Js.includes]. rewrite orb_true_iff, prefix_app, IH. split.
    + intros [(rest & Hrest)|(before & after & Hs)].
      * by exists "", rest.
      * exists (String c before), after. by rewrite append_cons, Hs.
    + intros (before & after & Hs). destruct before as [|d before].
      * left. by exists after.
      * right. rewrite append_cons in Hs. injection Hs as -> Hs.
        by exists before, after.
Qed.

Example toLowerCase_readme : Js.toLowerCase "Docs/README.MD" = "docs/readme.md".
Proof. reflexivity. Qed.

Example split_head_agent_library :
  Js.split_head "/.agent_library" "/home/u/repo-a/.agent_library/rust.md" = "/home/u/repo-a".
Proof. reflexivity. Qed.

Example split_head_absent :
  Js.split_head "/.agent_library" "/home/u/repo-a/README.md" = "/home/u/repo-a/README.md".
Proof. reflexivity. Qed.

Example split_pop_file : Js.split_pop "/home/u/repo-a/.agent_library/rust.md" = "rust.md".
Proof. reflexivity. Qed.

Example split_pop_no_slash : Js.split_pop "rust.md" = "rust.md".
Proof. reflexivity. Qed.

Example findIndex_second : Js.findIndex (Nat.eqb 7) [3; 7; 7]%nat = Some 1%nat.
Proof. reflexivity. Qed.

End JsFacts.

(** ** Port search *)

Module PortAllocatorFacts.
Import Os PortAllocator.

Lemma bind_held (p : Z) (w : World) :
  p ∈ held w ->
  bind p w = (Err "Address already in use",
              mkWorld (held w) (attempts w ++ [p]) (tasks w)).
Proof. intros Hin. unfold bind. by rewrite decide_True. Qed.

Lemma bind_free (p : Z) (w : World) :
  p ∉ held w ->
  bind p w = (Ok p, mkWorld ({[p]} ∪ held w) (attempts w ++ [p]) (tasks w)).
Proof. intros Hout. unfold bind. by rewrite decide_False. Qed.

(** A probe of a free port leaves the set of held ports as it was. *)
Lemma probe_releases (p : Z) (w : World) :
  p ∉ held w ->
  held (drop p (mkWorld ({[p]} ∪ held w) (attempts w ++ [p]) (tasks w))) = held w.
Proof.
  intros Hout. simpl. apply set_eq. intros x.
  rewrite elem_of_difference, elem_of_union, !elem_of_singleton.
  split; [intros [[->|Hx] Hne]; done|].
  intros Hx. split; [by right|]. by intros ->.
Qed.

(** The loop over [m, m + k): the first free port, after probing every
    port up to it in ascending order; or an error after probing them all. *)
Lemma scan_seqZ (k : nat) : forall (m : Z) (w : World),
  match scan (seqZ m (Z.of_nat k)) w with
  | (Ok p, w') =>
      (m <= p < m + Z.of_nat k)%Z /\ (p ∉ held w) /\
      (forall q, (m <= q < p)%Z -> q ∈ held w) /\
      attempts w' = attempts w ++ seqZ m (p - m + 1) /\
      held w' = held w /\ tasks w' = tasks w
  | (Err e, w') =>
      e = exhausted /\
      (forall q, (m <= q < m + Z.of_nat k)%Z -> q ∈ held w) /\
      attempts w' = attempts w ++ seqZ m (Z.of_nat k) /\
      held w' = held w /\ tasks w' = tasks w
  end.
Proof.
  induction k as [|k IH]; intros m w.
  - simpl. rewrite app_nil_r. repeat split; try done. intros q Hq. lia.
  - rewrite seqZ_cons by lia.
    replace (Z.pred (Z.of_nat (S k))) with (Z.of_nat k) by lia.
    cbn [scan]. destruct (decide (m ∈ held w)) as [Hin|Hout].
    + rewrite (bind_held _ _ Hin).
      specialize (IH (Z.succ m) (mkWorld (held w) (attempts w ++ [m]) (tasks w))).
      destruct (scan _ _) as [[p|e] w']; simpl in IH.
      * destruct IH as (Hp & Hfree & Hbefore & Hlog & Hheld & Htasks).
        repeat split; try done; try lia.
        -- intros q Hq. destruct (decide (q = m)) as [->|Hne]; [done|].
           apply Hbefore. lia.
        -- rewrite Hlog, <- app_assoc. f_equal.
           rewrite (seqZ_cons m) by lia. simpl. do 2 f_equal. lia.
      * destruct IH as (He & Hall & Hlog & Hheld & Htasks).
        repeat split; try done.
        -- intros q Hq. destruct (decide (q = m)) as [->|Hne]; [done|].
           apply Hall. lia.
        -- rewrite Hlog, <- app_assoc. done.
    + rewrite (bind_free _ _ Hout).
      repeat split; try done; try lia.
      * replace (m - m + 1)%Z with 1%Z by lia. done.
      * apply probe_releases, Hout.
Qed.

(** The outcome of the search over the fixed range. *)
Lemma find_available_port_outcome (w : World) :
  match find_available_port w with
  | (Ok p, w') =>
      (9500 <= p <= 9599)%Z /\ (p ∉ held w) /\
      (forall q, (9500 <= q < p)%Z -> q ∈ held w) /\
      attempts w' = attempts w ++ seqZ 9500 (p - 9500 + 1) /\
      held w' = held w /\ tasks w' = tasks w
  | (Err e, w') =>
      e = exhausted /\
      (forall q, (9500 <= q <= 9599)%Z -> q ∈ held w) /\
      attempts w' = attempts w ++ seqZ 9500 100 /\
      held w' = held w /\ tasks w' = tasks w
  end.
Proof.
  unfold find_available_port, range, PORT_MIN, PORT_END.
  pose proof (scan_seqZ 100 9500 w) as H.
  change (Z.of_nat 100) with 100%Z in H.
  change (9600 - 9500)%Z with 100%Z.
  destruct (scan (seqZ 9500 100) w) as [[p|e] w'].
  - destruct H as (Hp & Hfree & Hbefore & Hlog & Hheld & Htasks).
    repeat split; try done; lia.
  - destruct H as (He & Hall & Hlog & Hheld & Htasks).
    repeat split; try done. intros q Hq. apply Hall. lia.
Qed.

(** C4. [find_available_port] probes 9500, 9501, ... in ascending order and
    returns the first port that can be bound: a returned port lies in
    [9500, 9599], was free, and every smaller port of the range was probed
    before it and found in use. When every port of the range is in use the
    result is the exhausted-range error, after a probe of each port, and no
    port is returned. Either way the probes leave no port held. *)
Theorem find_available_port_first_free (w : World) :
  (exists p w',
      find_available_port w = (Ok p, w') /\
      (9500 <= p <= 9599)%Z /\ (p ∉ held w) /\
      (forall q, (9500 <= q < p)%Z -> q ∈ held w) /\
      attempts w' = attempts w ++ seqZ 9500 (p - 9500 + 1) /\
      held w' = held w)
  \/
  (exists w',
      find_available_port w = (Err "No available ports in range 9500-9599", w') /\
      (forall q, (9500 <= q <= 9599)%Z -> q ∈ held w) /\
      attempts w' = attempts w ++ seqZ 9500 100 /\
      held w' = held w).
Proof.
  pose proof (find_available_port_outcome w) as H.
  destruct (find_available_port w) as [[p|e] w'].
  - left. exists p, w'. destruct H as (Hp & Hfree & Hbefore & Hlog & Hheld & _).
    repeat split; try done; lia.
  - right. exists w'. destruct H as (-> & Hall & Hlog & Hheld & _).
    repeat split; done.
Qed.

(** The error is returned exactly when the whole range is in use. *)
Lemma find_available_port_exhausted (w : World) :
  (forall q, (9500 <= q <= 9599)%Z -> q ∈ held w) <->
  fst (find_available_port w) = Err exhausted.
Proof.
  pose proof (find_available_port_outcome w) as H.
  destruct (find_available_port w) as [[p|e] w']; simpl.
  - destruct H as (Hp & Hfree & _). split; [|done].
    intros Hall. destruct Hfree. apply Hall. lia.
  - destruct H as (-> & Hall & _). done.
Qed.

End PortAllocatorFacts.

(** ** The JSON-RPC engine *)

Module JsonRpcFacts.
Import Json JsonRpc.

(** What [prompts/get] answers for a prompt. *)
Definition answer_for (prompt : Prompt) : PromptsGetResult :=
  mkGetResult (Some (prompt_description prompt))
              [mkMessage "user" (Text (prompt_content prompt))].

Lemma search_prompts_app (name : string) (ps qs : list Prompt) :
  search_prompts name (ps ++ qs) =
  match search_prompts name ps with
  | Some r => Some r
  | None => search_prompts name qs
  end.
Proof.
  induction ps as [|p ps IH]; simpl; [done|].
  destruct (decide (prompt_name p = name)); [done|apply IH].
Qed.

(** The nested loops visit the prompts of all libraries in order. *)
Lemma search_libraries_flat (name : string) (ls : list AgentLibrary) :
  search_libraries name ls = search_prompts name (all_prompts ls).
Proof.
  induction ls as [|l ls IH]; simpl; [done|].
  unfold all_prompts in *. simpl. rewrite search_prompts_app, IH. done.
Qed.

Lemma search_prompts_none (name : string) (ps : list Prompt) :
  (forall p, p ∈ ps -> prompt_name p ≠ name) ->
  search_prompts name ps = None.
Proof.
  induction ps as [|p ps IH]; intros Hno; simpl; [done|].
  destruct (decide (prompt_name p = name)) as [Heq|Hne].
  - destruct (Hno p); [apply list_elem_of_here|done].
  - apply IH. intros q Hq. apply Hno. by apply list_elem_of_further.
Qed.

(** The search stops at the first prompt with the name. *)
Lemma search_prompts_first (name : string) (ps : list Prompt) (p : Prompt) (qs : list Prompt) :
  (forall q, q ∈ ps -> prompt_name q ≠ name) ->
  prompt_name p = name ->
  search_prompts name (ps ++ p :: qs) = Some (answer_for p).
Proof.
  intros Hno Hp. rewrite search_prompts_app, (search_prompts_none _ _ Hno).
  simpl. by rewrite decide_True.
Qed.

Lemma search_prompts_unique (name : string) (ps : list Prompt) (p : Prompt) :
  NoDup (prompt_name <$> ps) ->
  p ∈ ps ->
  prompt_name p = name ->
  search_prompts name ps = Some (answer_for p).
Proof.
  induction ps as [|x ps IH]; intros Hnd Hin Hname.
  - by apply elem_of_nil in Hin.
  - rewrite fmap_cons in Hnd. apply NoDup_cons in Hnd as [Hx Hnd].
    simpl. destruct (decide (prompt_name x = name)) as [Heq|Hne].
    + apply elem_of_cons in Hin as [->|Hin]; [done|].
      destruct Hx. rewrite Heq, <- Hname. apply list_elem_of_fmap. by exists p.
    + apply elem_of_cons in Hin as [->|Hin]; [done|]. by apply IH.
Qed.

(** A prompt with the name is in the list: the list splits at the first
    such prompt. *)
Lemma first_with_name (name : string) (ps : list Prompt) (p : Prompt) :
  p ∈ ps ->
  prompt_name p = name ->
  exists before first after,
    ps = before ++ first :: after /\
    (forall q, q ∈ before -> prompt_name q ≠ name) /\
    prompt_name first = name.
Proof.
  induction ps as [|x ps IH]; intros Hin Hname.
  - by apply elem_of_nil in Hin.
  - destruct (decide (prompt_name x = name)) as [Heq|Hne].
    + exists [], x, ps. split; [done|]. split; [|done].
      intros q Hq. by apply elem_of_nil in Hq.
    + apply elem_of_cons in Hin as [->|Hin]; [done|].
      destruct (IH Hin Hname) as (before & first & after & -> & Hno & Hfirst).
      exists (x :: before), first, after. split; [done|]. split; [|done].
      intros q Hq. apply elem_of_cons in Hq as [->|Hq]; [done|]. by apply Hno.
Qed.

(** C2 (amended). [prompts/get] with parameters that decode to the name
    [n]. If [n] is the name (the id of the agent index) of a prompt of the
    served libraries, the answer is a result carrying the description of
    the first prompt named [n], in the order of the libraries and of their
    prompts, and exactly one message, of role "user" and type "text", whose
    text is the content of that first prompt; it is the prompt asked for
    when the prompt names are pairwise distinct. If no served prompt has
    the name [n], the answer is the error -32602 whose message quotes
    [n]. *)
Theorem handle_prompts_get_first_with_name
  (from_value : Value -> Result PromptsGetParams JsonRpcError)
  (state : McpServerState) (v : Value) (params : PromptsGetParams) :
  from_value v = Ok params ->
  (forall prompt,
      prompt ∈ all_prompts (agent_libraries state) ->
      prompt_name prompt = params_name params ->
      exists before first after,
        all_prompts (agent_libraries state) = before ++ first :: after /\
        (forall q, q ∈ before -> prompt_name q ≠ params_name params) /\
        prompt_name first = params_name params /\
        (NoDup (prompt_name <$> all_prompts (agent_libraries state)) -> first = prompt) /\
        handle_prompts_get from_value (Some v) state =
        Ok (Object
              [("description", String (prompt_description first));
               ("messages",
                Array [Object [("role", String "user");
                               ("content",
                                Object [("type", String "text");
                                        ("text", String (prompt_content first))])]])]))
  /\
  ((forall prompt,
       prompt ∈ all_prompts (agent_libraries state) ->
       prompt_name prompt ≠ params_name params) ->
   handle_prompts_get from_value (Some v) state =
   Err (mkError (-32602) ("Prompt '" +:+ params_name params +:+ "' not found") None)).
Proof.
  intros Hdec. unfold handle_prompts_get. rewrite Hdec, search_libraries_flat.
  split.
  - intros prompt Hin Hname.
    destruct (first_with_name _ _ _ Hin Hname)
      as (before & first & after & Hall & Hno & Hfirst).
    exists before, first, after. split; [done|]. split; [done|]. split; [done|].
    split.
    + intros Hnd.
      pose proof (search_prompts_unique _ _ prompt Hnd Hin Hname) as Hu.
      rewrite Hall, (search_prompts_first _ _ _ _ Hno Hfirst) in Hu.
      destruct first, prompt. simpl in *. injection Hu as -> ->. congruence.
    + by rewrite Hall, (search_prompts_first _ _ _ _ Hno Hfirst).
  - intros Hno. by rewrite (search_prompts_none _ _ Hno).
Qed.

(** Without the assumption on names, the answer is that of the first
    prompt with the name, in the order of the libraries and their prompts. *)
Lemma handle_prompts_get_first
  (from_value : Value -> Result PromptsGetParams JsonRpcError)
  (state : McpServerState) (v : Value) (params : PromptsGetParams)
  (before : list Prompt) (prompt : Prompt) (after : list Prompt) :
  from_value v = Ok params ->
  all_prompts (agent_libraries state) = before ++ prompt :: after ->
  (forall q, q ∈ before -> prompt_name q ≠ params_name params) ->
  prompt_name prompt = params_name params ->
  handle_prompts_get from_value (Some v) state =
  Ok (PromptsGetResult_to_value (answer_for prompt)).
Proof.
  intros Hdec Hall Hno Hname. unfold handle_prompts_get.
  rewrite Hdec, search_libraries_flat, Hall.
  by rewrite (search_prompts_first _ _ _ _ Hno Hname).
Qed.

(** A request without parameters is refused. *)
Lemma handle_prompts_get_no_params
  (from_value : Value -> Result PromptsGetParams JsonRpcError) (state : McpServerState) :
  handle_prompts_get from_value None state = Err (mkError (-32602) "Invalid params" None).
Proof. reflexivity. Qed.

(** A library with the prompts [a] and [b]. *)
Definition library_ab : AgentLibrary :=
  mkLibrary "lib" "two prompts"
    [mkPrompt "a" "first" "# A"; mkPrompt "b" "second" "# B"].

Definition state_ab : McpServerState :=
  mkState [library_ab] (mkServerInfo "librarian-mcp-server" "1.0.0").

Definition get_a : Value := Object [("name", String "a")].
Definition get_c : Value := Object [("name", String "c")].

Lemma handle_prompts_get_first_with_name_witness :
  handle_prompts_get params_of_object (Some get_a) state_ab =
  Ok (Object
        [("description", String "first");
         ("messages",
          Array [Object [("role", String "user");
                         ("content",
                          Object [("type", String "text"); ("text", String "# A")])]])])
  /\
  handle_prompts_get params_of_object (Some get_c) state_ab =
  Err (mkError (-32602) "Prompt 'c' not found" None).
Proof.
  split.
  - destruct (proj1 (handle_prompts_get_first_with_name params_of_object state_ab get_a
                       (mkGetParams "a" None) eq_refl)
                    (mkPrompt "a" "first" "# A") (list_elem_of_here _ _) eq_refl)
      as (before & first & after & _ & _ & _ & Hsame & Hanswer).
    rewrite Hanswer, Hsame; [reflexivity|].
    apply (bool_decide_unpack _). vm_compute. exact I.
  - refine (proj2 (handle_prompts_get_first_with_name params_of_object state_ab get_c
                     (mkGetParams "c" None) eq_refl) _).
    intros prompt Hin. simpl in Hin.
    apply elem_of_cons in Hin as [->|Hin]; [done|].
    apply elem_of_cons in Hin as [->|Hin]; [done|].
    by apply elem_of_nil in Hin.
Defined.

Definition recognized : list string :=
  ["initialize"; "prompts/list"; "prompts/get"; "resources/list"; "resources/read"].

(** C3. A request whose method is none of initialize, prompts/list,
    prompts/get, resources/list and resources/read is answered with the
    error -32601, "Method not found", under the id of the request. *)
Theorem handle_jsonrpc_unknown_method
  (from_value : Value -> Result PromptsGetParams JsonRpcError)
  (resources_list resources_read : option Value -> McpServerState -> Result Value JsonRpcError)
  (state : McpServerState) (request : JsonRpcRequest) :
  req_method request ∉ recognized ->
  snd (handle_jsonrpc from_value resources_list resources_read state request) =
  mkResponse "2.0" (req_id request) None
             (Some (mkError (-32601) "Method not found" None)).
Proof.
  intros Hnot. unfold recognized in Hnot.
  repeat (apply not_elem_of_cons in Hnot as [? Hnot]).
  unfold handle_jsonrpc. simpl. by rewrite !decide_False.
Qed.

Definition tools_list_request : JsonRpcRequest :=
  mkRequest "2.0" (Some (Number 7)) "tools/list" None.

Lemma handle_jsonrpc_unknown_method_witness :
  snd (handle_jsonrpc params_of_object (fun _ _ => Ok Null) (fun _ _ => Ok Null)
         state_ab tools_list_request) =
  mkResponse "2.0" (Some (Number 7)) None
             (Some (mkError (-32601) "Method not found" None)).
Proof.
  apply (handle_jsonrpc_unknown_method params_of_object (fun _ _ => Ok Null)
           (fun _ _ => Ok Null) state_ab tools_list_request).
  apply (bool_decide_unpack _). vm_compute. exact I.
Defined.

(** Every answer carries either a result or an error, never both, and the
    id of its request. *)
Lemma handle_jsonrpc_result_xor_error
  (from_value : Value -> Result PromptsGetParams JsonRpcError)
  (resources_list resources_read : option Value -> McpServerState -> Result Value JsonRpcError)
  (state : McpServerState) (request : JsonRpcRequest) :
  let response := snd (handle_jsonrpc from_value resources_list resources_read state request) in
  id response = req_id request /\
  (is_Some (result response) <-> error response = None).
Proof.
  unfold handle_jsonrpc. simpl.
  repeat case_decide;
    try (match goal with |- context [respond _ ?r] => destruct r end);
    simpl; (split; [done|]); split; intros Hx; try done; by destruct Hx.
Qed.

End JsonRpcFacts.

(** ** The registry of servers *)

Module RegistryFacts.
Import Os PortAllocator JsonRpc Registry.

(** C1 (amended). Starting a repository that is already in the registry is
    a no-op: no port is probed or bound, no task is spawned, the registry
    keeps its single entry for the id, and the caller receives the fixed
    text "Server already running". *)
Theorem start_already_running
  (parse : string -> Result AgentLibrary string)
  (repository_id repo_path : string)
  (servers : gmap string McpServerHandle) (w : World) (server : McpServerHandle) :
  servers !! repository_id = Some server ->
  start_repository_mcp_server parse repository_id repo_path servers w =
  (Ok "Server already running", servers, w).
Proof.
  intros Hrun. unfold start_repository_mcp_server.
  rewrite decide_True; [done|]. by exists server.
Qed.

Definition empty_library : AgentLibrary := mkLibrary "lib" "no prompts" [].

Definition no_parser : string -> Result AgentLibrary string :=
  fun _ => Err "agent_index.yml not found".

(** A registry whose only server, of [repo-a], listens on [p]. *)
Definition one_server (p : Z) : gmap string McpServerHandle :=
  {[ "repo-a" := mkHandle p 0 "/home/u/repo-a" ]}.

(** Its future has run: the port was probed, then bound, and the serve task
    holds it. *)
Definition one_world (p : Z) : World :=
  mkWorld {[ p ]} [p; p] [Finished; Serving p empty_library].

Lemma start_already_running_witness :
  start_repository_mcp_server no_parser "repo-a" "/home/u/repo-a"
    (one_server 9501) (one_world 9501) =
  (Ok "Server already running", one_server 9501, one_world 9501).
Proof.
  apply (start_already_running no_parser "repo-a" "/home/u/repo-a"
           (one_server 9501) (one_world 9501) (mkHandle 9501 0 "/home/u/repo-a")).
  reflexivity.
Defined.

(** The answer of a repeated start names the port [p]. *)
Definition names_port (answer : Result string string) (p : Z) : Prop :=
  exists text, answer = Ok text /\ Js.includes (pretty p) text = true.

(** C1, as stated, fails: for a server running on 9501 and for one running
    on 9500 the repeated start returns the same text, which names neither
    port. *)
Lemma start_again_does_not_return_port :
  one_server 9501 !! "repo-a" = Some (mkHandle 9501 0 "/home/u/repo-a") /\
  (start_repository_mcp_server no_parser "repo-a" "/home/u/repo-a"
     (one_server 9501) (one_world 9501)).1.1 = Ok "Server already running" /\
  (start_repository_mcp_server no_parser "repo-a" "/home/u/repo-a"
     (one_server 9500) (one_world 9500)).1.1 = Ok "Server already running" /\
  ~ names_port
      (start_repository_mcp_server no_parser "repo-a" "/home/u/repo-a"
         (one_server 9501) (one_world 9501)).1.1 9501.
Proof.
  split; [reflexivity|]. split; [reflexivity|]. split; [reflexivity|].
  intros (text & Hanswer & Hnames).
  change ((start_repository_mcp_server no_parser "repo-a" "/home/u/repo-a"
             (one_server 9501) (one_world 9501)).1.1)
    with (@Ok string string "Server already running") in Hanswer.
  injection Hanswer as <-. vm_compute in Hnames. discriminate.
Qed.

(** A first start, by contrast, reports the port it has found free, and
    registers a handle with that port; the future that will bind it is
    queued, and nothing is bound yet. *)
Lemma start_fresh
  (parse : string -> Result AgentLibrary string)
  (repository_id repo_path : string)
  (servers : gmap string McpServerHandle) (w : World) (library : AgentLibrary) :
  servers !! repository_id = None ->
  parse repo_path = Ok library ->
  (forall q, (9500 <= q <= 9599)%Z -> q ∈ held w) \/
  exists p servers' w',
    start_repository_mcp_server parse repository_id repo_path servers w =
    (Ok ("MCP server started on port " +:+ pretty p), servers', w') /\
    (9500 <= p <= 9599)%Z /\
    servers' = <[repository_id := mkHandle p (length (tasks w)) repo_path]> servers /\
    (p ∉ held w) /\
    held w' = held w /\
    tasks w' = tasks w ++ [Scheduled p library].
Proof.
  intros Hnone Hparse. unfold start_repository_mcp_server.
  rewrite decide_False by (rewrite Hnone; by intros [? ?]).
  pose proof (PortAllocatorFacts.find_available_port_outcome w) as H.
  destruct (find_available_port w) as [[p|e] w1].
  - right. destruct H as (Hp & Hfree & _ & Hlog & Hheld & Htasks).
    rewrite Hparse. simpl. rewrite Htasks, Hheld. by eexists _, _, _.
  - left. by destruct H as (_ & Hall & _).
Qed.

(** C5 (amended). Stopping a repository that has no entry in the registry
    returns the error "Server not found"; the registry and the running
    tasks are left as they were. *)
Theorem stop_not_running
  (repository_id : string) (servers : gmap string McpServerHandle) (w : World) :
  servers !! repository_id = None ->
  stop_repository_mcp_server repository_id servers w =
  (Err "Server not found", servers, w).
Proof.
  intros Hnone. unfold stop_repository_mcp_server.
  rewrite Hnone. by rewrite (delete_id _ _ Hnone).
Qed.

Lemma stop_not_running_witness :
  stop_repository_mcp_server "repo-b" (one_server 9501) (one_world 9501) =
  (Err "Server not found", one_server 9501, one_world 9501).
Proof.
  apply (stop_not_running "repo-b" (one_server 9501) (one_world 9501)).
  reflexivity.
Defined.

(** C5, as stated, fails: stopping a repository that is not running is
    answered with an error, not with success. *)
Lemma stop_not_running_is_an_error :
  one_server 9501 !! "repo-b" = None /\
  (stop_repository_mcp_server "repo-b" (one_server 9501) (one_world 9501)).1.1
  = Err "Server not found" /\
  is_ok (stop_repository_mcp_server "repo-b" (one_server 9501) (one_world 9501)).1.1
  = false.
Proof. split; [reflexivity|]. split; reflexivity. Qed.

(** Stopping a registered repository removes its entry and aborts the
    task of its handle. *)
Lemma stop_running
  (repository_id : string) (servers : gmap string McpServerHandle) (w : World)
  (server : McpServerHandle) :
  servers !! repository_id = Some server ->
  stop_repository_mcp_server repository_id servers w =
  (Ok "Server stopped", delete repository_id servers, abort (handle server) w).
Proof. intros Hrun. unfold stop_repository_mcp_server. by rewrite Hrun. Qed.

End RegistryFacts.

(** ** The configuration store *)

Module ConfigFacts.
Import Config.

Lemma findIndex_Some {A} (f : A -> bool) (l : list A) (i : nat) :
  Js.findIndex f l = Some i <->
  exists x, l !! i = Some x /\ f x = true /\
            forall j y, (j < i)%nat -> l !! j = Some y -> f y = false.
Proof.
  revert i. induction l as [|a l IH]; intros i; simpl.
  - split; [done|]. by intros (x & Hx & _).
  - destruct (f a) eqn:Hfa.
    + split.
      * intros [= <-]. exists a. repeat split; [done|]. intros j y Hj. lia.
      * intros (x & Hx & Hfx & Hfirst). destruct i as [|i]; [done|].
        specialize (Hfirst 0%nat a). rewrite Hfirst in Hfa; [done|lia|done].
    + destruct (Js.findIndex f l) as [k|] eqn:Hk; simpl.
      * split.
        -- intros [= <-]. destruct (proj1 (IH k) eq_refl) as (x & Hx & Hfx & Hfirst).
           exists x. repeat split; [done..|].
           intros [|j] y Hj Hy; simpl in Hy; [by injection Hy as <-|].
           apply (Hfirst j); [lia|done].
        -- intros (x & Hx & Hfx & Hfirst). destruct i as [|i].
           { simpl in Hx. injection Hx as <-. congruence. }
           f_equal. assert (Some k = Some i) as [= ->]; [|done].
           apply IH. exists x. repeat split; [done..|].
           intros j y Hj Hy. apply (Hfirst (S j)); [lia|done].
      * split; [done|]. intros (x & Hx & Hfx & Hfirst). destruct i as [|i].
        { simpl in Hx. injection Hx as <-. congruence. }
        assert (None = Some i) as Hcontra; [|done].
        apply IH. exists x. repeat split; [done..|].
        intros j y Hj Hy. apply (Hfirst (S j)); [lia|done].
Qed.

Lemma findIndex_None {A} (f : A -> bool) (l : list A) :
  Js.findIndex f l = None <-> forall x, x ∈ l -> f x = false.
Proof.
  induction l as [|a l IH]; simpl.
  - split; [|done]. intros _ x Hx. by apply elem_of_nil in Hx.
  - destruct (f a) eqn:Hfa.
    + split; [done|]. intros Hall. rewrite Hall in Hfa; [done|apply list_elem_of_here].
    + destruct (Js.findIndex f l) as [k|]; simpl.
      * split; [done|]. intros Hall.
        assert (Some k = None) as Hcontra; [|done].
        apply IH. intros x Hx. apply Hall. by apply list_elem_of_further.
      * split; [|done]. intros _ x Hx.
        apply elem_of_cons in Hx as [->|Hx]; [done|]. by apply IH.
Qed.

(** Replacing an entry by one with the same id keeps the list of ids. *)
Lemma ids_insert_same (l : list RepositoryConfig) (i : nat) (r r' : RepositoryConfig) :
  l !! i = Some r -> id r = id r' ->
  id <$> <[i := r']> l = id <$> l.
Proof.
  intros Hi Hid. rewrite list_fmap_insert, <- Hid.
  apply list_insert_id. by rewrite list_lookup_fmap, Hi.
Qed.

Lemma same_id_true (repository r : RepositoryConfig) :
  bool_decide (id r = id repository) = true <-> id r = id repository.
Proof. apply bool_decide_eq_true. Qed.

Lemma same_id_false (repository r : RepositoryConfig) :
  bool_decide (id r = id repository) = false <-> id r ≠ id repository.
Proof. apply bool_decide_eq_false. Qed.

(** The update of the store, case by case. *)
Lemma addRepository_update_replace (repository : RepositoryConfig) (config : AppConfig)
  (i : nat) (r : RepositoryConfig) :
  repositories config !! i = Some r ->
  id r = id repository ->
  (forall j r', (j < i)%nat -> repositories config !! j = Some r' -> id r' ≠ id repository) ->
  repositories (addRepository_update repository config) =
  <[i := repository]> (repositories config).
Proof.
  intros Hi Hid Hfirst. unfold addRepository_update.
  assert (Js.findIndex (fun r => bool_decide (id r = id repository))
            (repositories config) = Some i) as ->; [|done].
  apply findIndex_Some. exists r. repeat split; [done|by apply same_id_true|].
  intros j y Hj Hy. apply same_id_false. by apply (Hfirst j).
Qed.

Lemma addRepository_update_append (repository : RepositoryConfig) (config : AppConfig) :
  (forall r, r ∈ repositories config -> id r ≠ id repository) ->
  repositories (addRepository_update repository config) =
  repositories config ++ [repository].
Proof.
  intros Hnew. unfold addRepository_update.
  assert (Js.findIndex (fun r => bool_decide (id r = id repository))
            (repositories config) = None) as ->; [|done].
  apply findIndex_None. intros x Hx. apply same_id_false. by apply Hnew.
Qed.

Lemma addRepository_update_others (repository : RepositoryConfig) (config : AppConfig)
  (j : nat) (r : RepositoryConfig) :
  repositories config !! j = Some r ->
  id r ≠ id repository ->
  repositories (addRepository_update repository config) !! j = Some r.
Proof.
  intros Hj Hne. unfold addRepository_update.
  destruct (Js.findIndex _ _) as [i|] eqn:Hfind; simpl.
  - apply findIndex_Some in Hfind as (x & Hx & Hfx & _).
    apply same_id_true in Hfx.
    rewrite list_lookup_insert_ne; [done|]. intros ->. congruence.
  - rewrite lookup_app_l; [done|]. by apply lookup_lt_Some in Hj.
Qed.

Lemma addRepository_update_NoDup (repository : RepositoryConfig) (config : AppConfig) :
  NoDup (id <$> repositories config) ->
  NoDup (id <$> repositories (addRepository_update repository config)).
Proof.
  intros Hnd. unfold addRepository_update.
  destruct (Js.findIndex _ _) as [i|] eqn:Hfind; simpl.
  - apply findIndex_Some in Hfind as (x & Hx & Hfx & _).
    apply same_id_true in Hfx. by rewrite (ids_insert_same _ _ x).
  - rewrite fmap_app. apply NoDup_app. repeat split; [done| |apply NoDup_singleton].
    intros s Hs Hs'. apply list_elem_of_singleton in Hs'. subst s.
    apply list_elem_of_fmap in Hs as (r & Hid & Hr).
    pose proof (proj1 (findIndex_None _ _) Hfind r Hr) as Hfalse.
    apply same_id_false in Hfalse. congruence.
Qed.

(** After the update the argument is in the store. *)
Lemma addRepository_update_elem (repository : RepositoryConfig) (config : AppConfig) :
  repository ∈ repositories (addRepository_update repository config).
Proof.
  unfold addRepository_update.
  destruct (Js.findIndex _ _) as [i|] eqn:Hfind; simpl.
  - apply findIndex_Some in Hfind as (x & Hx & _).
    apply list_elem_of_lookup. exists i. apply list_lookup_insert_eq.
    by apply lookup_lt_Some in Hx.
  - apply elem_of_app. right. apply list_elem_of_here.
Qed.

(** C9. [ConfigAPI.addRepository] keeps the ids of the [appConfig] store
    pairwise distinct. When the backend command fails, its error is thrown
    again and the store is left as it was. When the backend command
    succeeds, the call succeeds and the store is updated: the argument is
    in it; an entry with the id of the argument (the first one, hence the
    only one when ids are distinct) is replaced at its index; if there is
    none the argument is appended at the end; every entry with another id
    stays at its index; the other fields of the configuration are kept. In
    both cases the backend is left as the command has left it. *)
Theorem addRepository_keeps_ids_unique
  (B : Type) (add_repository_config : RepositoryConfig -> B -> Result unit string * B)
  (repository : RepositoryConfig) (config : AppConfig) (b : B) :
  let out := addRepository B add_repository_config repository (config, b) in
  let config' := out.2.1 in
  (NoDup (id <$> repositories config) -> NoDup (id <$> repositories config')) /\
  match add_repository_config repository b with
  | (Err e, b') => out = (Err e, (config, b'))
  | (Ok _, b') =>
      out.1 = Ok () /\
      out.2.2 = b' /\
      repository ∈ repositories config' /\
      (forall i r,
          repositories config !! i = Some r ->
          id r = id repository ->
          (forall j r', (j < i)%nat -> repositories config !! j = Some r' ->
                        id r' ≠ id repository) ->
          repositories config' = <[i := repository]> (repositories config)) /\
      ((forall r, r ∈ repositories config -> id r ≠ id repository) ->
       repositories config' = repositories config ++ [repository]) /\
      (forall j r,
          repositories config !! j = Some r ->
          id r ≠ id repository ->
          repositories config' !! j = Some r) /\
      last_opened_repository config' = last_opened_repository config /\
      theme config' = theme config /\
      auto_start_servers config' = auto_start_servers config
  end.
Proof.
  unfold addRepository. simpl.
  destruct (add_repository_config repository b) as [[[]|e] b']; simpl.
  - split; [apply addRepository_update_NoDup|].
    split; [done|]. split; [done|].
    split; [apply addRepository_update_elem|].
    split; [apply addRepository_update_replace|].
    split; [apply addRepository_update_append|].
    split; [apply addRepository_update_others|done].
  - done.
Qed.

Definition repo_a_old : RepositoryConfig :=
  mkRepo "repo-a" "A" "/home/u/old" true "2024-05-01T10:00:00.000Z" None.

Definition repo_a_new : RepositoryConfig :=
  mkRepo "repo-a" "A" "/home/u/repo-a" true "2024-05-02T10:00:00.000Z" None.

Definition repo_b : RepositoryConfig :=
  mkRepo "repo-b" "B" "/home/u/repo-b" true "2024-05-01T10:00:00.000Z" None.

(** A backend that accepts every repository, counting the calls. *)
Definition accepting (r : RepositoryConfig) (calls : nat) : Result unit string * nat :=
  (Ok (), S calls).

(** A backend that refuses every repository. *)
Definition refusing (r : RepositoryConfig) (calls : nat) : Result unit string * nat :=
  (Err "Failed to save config", S calls).

Lemma addRepository_keeps_ids_unique_witness :
  let config := mkConfig [repo_a_old; repo_b] None "light" true in
  (addRepository nat accepting repo_a_new (config, 0%nat)).1 = Ok () /\
  repositories (addRepository nat accepting repo_a_new (config, 0%nat)).2.1
  = [repo_a_new; repo_b] /\
  repositories (addRepository nat accepting repo_b (appConfig_initial, 0%nat)).2.1
  = [repo_b] /\
  addRepository nat refusing repo_a_new (config, 0%nat)
  = (Err "Failed to save config", (config, 1%nat)).
Proof.
  intros config.
  pose proof (addRepository_keeps_ids_unique nat accepting repo_a_new config 0%nat)
    as [_ (Hok & _ & _ & Hreplace & _)].
  pose proof (addRepository_keeps_ids_unique nat accepting repo_b appConfig_initial 0%nat)
    as [_ (_ & _ & _ & _ & Happend & _)].
  pose proof (addRepository_keeps_ids_unique nat refusing repo_a_new config 0%nat)
    as [_ Hrefused].
  split; [exact Hok|]. split; [|split; [|exact Hrefused]].
  - apply (Hreplace 0%nat repo_a_old); [reflexivity|reflexivity|].
    intros j r' Hj. lia.
  - apply Happend. intros r Hr. by apply elem_of_nil in Hr.
Defined.

(** Removing a repository keeps the ids distinct as well. *)
Lemma removeRepository_update_NoDup (repositoryId : string) (config : AppConfig) :
  NoDup (id <$> repositories config) ->
  NoDup (id <$> repositories (removeRepository_update repositoryId config)).
Proof.
  unfold removeRepository_update. simpl.
  induction (repositories config) as [|r l IH]; [done|].
  rewrite fmap_cons, NoDup_cons. intros [Hr Hl].
  rewrite filter_cons. case_decide; [|by apply IH].
  rewrite fmap_cons. apply NoDup_cons. split; [|by apply IH].
  intros Hin. apply Hr. apply list_elem_of_fmap in Hin as (x & Hid & Hx).
  apply list_elem_of_fmap. exists x. split; [done|].
  by apply list_elem_of_filter in Hx as [_ Hx].
Qed.

End ConfigFacts.

(** ** The file watcher *)

Module FileWatcherFacts.
Import Config FileWatcher.

Section Facts.

Context {B : Type}.
Variable reload_agent_library : string -> string -> B -> Result string string * B.
Variable getCurrentConfig : AppConfig -> B -> Result AppConfig string * (AppConfig * B).

Local Abbreviation resume := (resume reload_agent_library getCurrentConfig).
Local Abbreviation step := (step reload_agent_library getCurrentConfig).
Local Abbreviation run := (run reload_agent_library getCurrentConfig).

(** The history of changes held by the page. *)
Definition history (app : App B) : list FileChangeEvent :=
  fileChangeEvents (stores app).

(** Starting a reload touches no store. *)
Lemma stores_auto_reload_callback (payload : FileChangeEvent) (enabled : bool) (app : App B) :
  stores (auto_reload_callback payload enabled app) = stores app.
Proof.
  unfold auto_reload_callback, reloadAgentLibrary.
  destruct (enabled && shouldAutoReload payload); [|done].
  by case_decide.
Qed.

Lemma history_auto_reload_callback (payload : FileChangeEvent) (enabled : bool) (app : App B) :
  history (auto_reload_callback payload enabled app) = history app.
Proof. unfold history. by rewrite stores_auto_reload_callback. Qed.

Lemma fileChangeEvents_showChangeNotification (payload : FileChangeEvent) (s : Stores) :
  fileChangeEvents (showChangeNotification payload s) = fileChangeEvents s.
Proof. unfold showChangeNotification. by destruct (shouldAutoReload payload). Qed.

Lemma history_on_file_change (payload : FileChangeEvent) (app : App B) :
  history (on_file_change payload app) = take 100 (payload :: history app).
Proof.
  unfold on_file_change, history, on_stores. cbn [stores].
  rewrite fileChangeEvents_showChangeNotification.
  unfold subscribe_auto_reload. by rewrite stores_auto_reload_callback.
Qed.

Lemma history_toggle (app : App B) :
  history (toggleAutoReload app) = history app.
Proof.
  unfold toggleAutoReload.
  set (start := mkApp _ _ _ _).
  change (history app) with (history start).
  generalize start. clear start.
  induction (autoReload_subscribers (stores app)) as [|p ps IH]; intros start; simpl.
  - done.
  - by rewrite IH, history_auto_reload_callback.
Qed.

Lemma history_clear (app : App B) : history (clearChangeHistory app) = [].
Proof. done. Qed.

Lemma history_resume (k : nat) (app : App B) :
  history (resume k app) = history app.
Proof.
  unfold FileWatcher.resume.
  destruct (in_flight app !! k) as [[repositoryId|repositoryId repoPath]|]; [| |done].
  - destruct (getCurrentConfig _ _) as [[config|e] [stored b]]; [|done].
    by destruct (List.find _ _).
  - by destruct (reload_agent_library _ _ _) as [[text|e] b].
Qed.

Lemma history_step_bounded (a : Action) (app : App B) :
  (length (history app) <= 100)%nat ->
  (length (history (step app a)) <= 100)%nat.
Proof.
  intros Hle. destruct a as [payload| | |k]; cbn [FileWatcher.step].
  - rewrite history_on_file_change, length_take. lia.
  - by rewrite history_toggle.
  - rewrite history_clear. simpl. lia.
  - by rewrite history_resume.
Qed.

Lemma history_run_bounded (actions : list Action) (app : App B) :
  (length (history app) <= 100)%nat ->
  (length (history (run actions app)) <= 100)%nat.
Proof.
  revert app. induction actions as [|a actions IH]; intros app Hle; [done|].
  simpl. apply IH. by apply history_step_bounded.
Qed.

Lemma take_app_take {A} (n : nat) (l k : list A) :
  take n (l ++ take n k) = take n (l ++ k).
Proof. rewrite !take_app, take_take. do 2 f_equal. lia. Qed.

Lemma history_deliveries (events : list FileChangeEvent) (app : App B) :
  history (run (Deliver <$> events) app) = take 100 (rev events ++ history app)
  \/ events = [].
Proof.
  destruct events as [|e events]; [by right|left].
  revert e app. induction events as [|e' events IH]; intros e app.
  - simpl. by rewrite history_on_file_change.
  - change (run (Deliver <$> e :: e' :: events) app)
      with (run (Deliver <$> e' :: events) (on_file_change e app)).
    rewrite IH, history_on_file_change.
    change (rev (e :: e' :: events)) with (rev (e' :: events) ++ [e]).
    by rewrite take_app_take, <- app_assoc.
Qed.

(** *** Which events start a reload *)

Lemma shouldAutoReload_patterns (event : FileChangeEvent) :
  shouldAutoReload event =
  Js.includes "agent_index.yml" (Js.toLowerCase (file_path event))
  || Js.includes "agent_index.yaml" (Js.toLowerCase (file_path event))
  || Js.includes ".md" (Js.toLowerCase (file_path event)).
Proof.
  unfold shouldAutoReload, importantFiles. cbn [existsb].
  change (Js.toLowerCase "agent_index.yml") with "agent_index.yml".
  change (Js.toLowerCase "agent_index.yaml") with "agent_index.yaml".
  change (Js.toLowerCase ".md") with ".md".
  by rewrite orb_false_r, orb_assoc.
Qed.

(** The repository path the listener derives from an event. *)
Definition derived_path (event : FileChangeEvent) : string :=
  Js.split_head "/.agent_library" (file_path event).

(** The call of [reloadAgentLibrary] a matching event starts. *)
Definition reload_of (event : FileChangeEvent) : Pending :=
  if decide (derived_path event = "")
  then AwaitConfig (repository_id event)
  else AwaitReload (repository_id event) (derived_path event).

(** The command that call sends at once, if any. *)
Definition command_of (event : FileChangeEvent) : option (string * string) :=
  if decide (derived_path event = "")
  then None
  else Some (repository_id event, derived_path event).

Lemma auto_reload_callback_skip (payload : FileChangeEvent) (enabled : bool) (app : App B) :
  enabled && shouldAutoReload payload = false ->
  auto_reload_callback payload enabled app = app.
Proof. intros Hskip. unfold auto_reload_callback. by rewrite Hskip. Qed.

Lemma auto_reload_callback_fire (payload : FileChangeEvent) (app : App B) :
  shouldAutoReload payload = true ->
  auto_reload_callback payload true app =
  mkApp (stores app) (in_flight app ++ [reload_of payload])
        (sent app ++ match command_of payload with
                     | Some (i, p) => [call_reload_agent_library i p]
                     | None => []
                     end)
        (backend app).
Proof.
  intros Hfire. unfold auto_reload_callback, reloadAgentLibrary, reload_of, command_of.
  rewrite Hfire. simpl. fold (derived_path payload).
  case_decide; [|done]. by rewrite app_nil_r.
Qed.

Lemma on_file_change_skip (payload : FileChangeEvent) (app : App B) :
  shouldAutoReload payload = false ->
  in_flight (on_file_change payload app) = in_flight app /\
  sent (on_file_change payload app) = sent app /\
  backend (on_file_change payload app) = backend app /\
  notification (stores (on_file_change payload app)) = notification (stores app).
Proof.
  intros Hskip. unfold on_file_change, subscribe_auto_reload.
  rewrite auto_reload_callback_skip by (by rewrite Hskip, andb_false_r).
  unfold on_stores, showChangeNotification. rewrite Hskip. done.
Qed.

Lemma on_file_change_fire (payload : FileChangeEvent) (app : App B) :
  autoReloadEnabled (stores app) = true ->
  shouldAutoReload payload = true ->
  in_flight (on_file_change payload app) = in_flight app ++ [reload_of payload] /\
  reloads (on_file_change payload app) =
  reloads app ++ from_option (fun c => [c]) [] (command_of payload) /\
  backend (on_file_change payload app) = backend app.
Proof.
  intros Hon Hfire. unfold on_file_change, subscribe_auto_reload.
  cbn [on_stores stores touch_watched push_event autoReloadEnabled
       in_flight sent backend].
  rewrite Hon, (auto_reload_callback_fire _ _ Hfire).
  unfold reloads. cbn [in_flight sent backend on_stores].
  rewrite map_app. repeat split; try done.
  f_equal. by destruct (command_of payload) as [[i p]|].
Qed.

Lemma on_file_change_enabled (payload : FileChangeEvent) (app : App B) :
  autoReloadEnabled (stores (on_file_change payload app)) = autoReloadEnabled (stores app).
Proof.
  unfold on_file_change, on_stores. cbn [stores].
  unfold showChangeNotification.
  assert (forall s, autoReloadEnabled
            (if shouldAutoReload payload
             then set_notification
                    (mkNotification info
                       (Js.or_else (Js.split_pop (file_path payload)) (file_path payload)
                        +:+ " が" +:+ changeTypeText (change_type payload) +:+ "されました")) s
             else s) = autoReloadEnabled s) as ->.
  { intros s. by destruct (shouldAutoReload payload). }
  unfold subscribe_auto_reload. by rewrite stores_auto_reload_callback.
Qed.

(** With auto-reload switched on, each delivery of a matching event starts
    a reload of its own. *)
Lemma deliveries_reload_each (events : list FileChangeEvent) (app : App B) :
  autoReloadEnabled (stores app) = true ->
  in_flight (run (Deliver <$> events) app) =
  in_flight app ++ (reload_of <$> filter (fun e => shouldAutoReload e) events) /\
  reloads (run (Deliver <$> events) app) =
  reloads app ++ omap command_of (filter (fun e => shouldAutoReload e) events) /\
  backend (run (Deliver <$> events) app) = backend app.
Proof.
  revert app. induction events as [|e events IH]; intros app Hon.
  - simpl. by rewrite !app_nil_r.
  - change (run (Deliver <$> e :: events) app)
      with (run (Deliver <$> events) (on_file_change e app)).
    destruct (IH (on_file_change e app)) as (Hfl & Hre & Hb);
      [by rewrite on_file_change_enabled|].
    rewrite Hfl, Hre, Hb. rewrite filter_cons.
    destruct (shouldAutoReload e) eqn:Hfire.
    + rewrite decide_True by done.
      destruct (on_file_change_fire e app Hon Hfire) as (-> & -> & ->).
      rewrite fmap_cons. cbn [omap list_omap].
      rewrite <- !app_assoc. repeat split; try done.
      f_equal. by destruct (command_of e).
    + rewrite decide_False by (by intros []).
      destruct (on_file_change_skip e app Hfire) as (-> & Hsent & -> & _).
      unfold reloads. by rewrite Hsent.
Qed.

End Facts.

(** C10. The [fileChangeEvents] store never holds more than 100 events.
    The listener puts each incoming event in front, so the list is ordered
    newest first, and keeps the first 100 entries; after a run of
    deliveries the store holds the 100 most recent of the events delivered
    and held before, newest first. The bound holds in every state the page
    can reach from its initial state. *)
Theorem fileChangeEvents_at_most_100
  (B : Type)
  (reload_agent_library : string -> string -> B -> Result string string * B)
  (getCurrentConfig : AppConfig -> B -> Result AppConfig string * (AppConfig * B)) :
  (forall (payload : FileChangeEvent) (app : App B),
      history (on_file_change payload app) = take 100 (payload :: history app)) /\
  (forall (payload : FileChangeEvent) (app : App B),
      (length (history (on_file_change payload app)) <= 100)%nat) /\
  (forall (e : FileChangeEvent) (events : list FileChangeEvent) (app : App B),
      history (run reload_agent_library getCurrentConfig (Deliver <$> e :: events) app)
      = take 100 (rev (e :: events) ++ history app)) /\
  (forall (actions : list Action) (b : B),
      (length (history (run reload_agent_library getCurrentConfig actions (app_initial b)))
       <= 100)%nat).
Proof.
  split; [apply history_on_file_change|].
  split; [intros payload app; rewrite history_on_file_change, length_take; lia|].
  split.
  - intros e events app.
    by destruct (history_deliveries reload_agent_library getCurrentConfig
                   (e :: events) app).
  - intros actions b. apply history_run_bounded. simpl. lia.
Qed.

(** A backend that counts the reloads it has run; its configuration cannot
    be read. *)
Definition no_config {B : Type} (stored : AppConfig) (b : B)
  : Result AppConfig string * (AppConfig * B) :=
  (Err "no configuration", (stored, b)).

Definition counting_reload (repositoryId repositoryPath : string) (n : nat)
  : Result string string * nat :=
  (Ok "reloaded", S n).

Definition index_saved : FileChangeEvent :=
  mkEvent "repo-a" "/home/u/repo-a/.agent_library/agent_index.yml" Modified
          "2024-05-01T10:00:00.000Z".

Definition index_saved_again : FileChangeEvent :=
  mkEvent "repo-a" "/home/u/repo-a/.agent_library/agent_index.yml" Modified
          "2024-05-01T10:00:00.050Z".

(** C6 (amended). The listener does not debounce. While auto-reload is
    switched on, every delivery of a matching event starts its own call of
    [reloadAgentLibrary], in the order of delivery, whatever the timestamps
    of the events; a call whose derived repository path is not empty sends
    its own [reload_agent_library] command at once. A burst of n matching
    events under a repository path therefore causes n reloads. *)
Theorem every_matching_event_reloads
  (B : Type)
  (reload_agent_library : string -> string -> B -> Result string string * B)
  (getCurrentConfig : AppConfig -> B -> Result AppConfig string * (AppConfig * B))
  (events : list FileChangeEvent) (app : App B) :
  autoReloadEnabled (stores app) = true ->
  in_flight (run reload_agent_library getCurrentConfig (Deliver <$> events) app) =
  in_flight app ++ (reload_of <$> filter (fun e => shouldAutoReload e) events) /\
  reloads (run reload_agent_library getCurrentConfig (Deliver <$> events) app) =
  reloads app ++ omap command_of (filter (fun e => shouldAutoReload e) events) /\
  ((forall e, e ∈ events -> shouldAutoReload e = true /\ derived_path e ≠ "") ->
   reloads (run reload_agent_library getCurrentConfig (Deliver <$> events) app) =
   reloads app ++ ((fun e => (repository_id e, derived_path e)) <$> events)).
Proof.
  intros Hon.
  destruct (deliveries_reload_each reload_agent_library getCurrentConfig events app Hon)
    as (Hfl & Hre & _).
  split; [done|]. split; [done|].
  intros Hall. rewrite Hre. f_equal. clear Hfl Hre.
  induction events as [|e events IH]; [done|].
  destruct (Hall e (list_elem_of_here _ _)) as [Hfire Hpath].
  rewrite filter_cons, decide_True by (by rewrite Hfire).
  cbn [omap list_omap]. unfold command_of at 1.
  rewrite decide_False by done. rewrite fmap_cons. f_equal.
  apply IH. intros e' He'. apply Hall. by apply list_elem_of_further.
Qed.

Lemma every_matching_event_reloads_witness :
  reloads (run counting_reload no_config
             (Deliver <$> [index_saved; index_saved_again]) (app_initial 0%nat)) =
  [("repo-a", "/home/u/repo-a"); ("repo-a", "/home/u/repo-a")].
Proof.
  refine (proj2 (proj2 (every_matching_event_reloads nat counting_reload no_config
                          [index_saved; index_saved_again] (app_initial 0%nat)
                          eq_refl)) _).
  intros e He.
  apply elem_of_cons in He as [->|He]; [by vm_compute|].
  apply elem_of_cons in He as [->|He]; [by vm_compute|].
  by apply elem_of_nil in He.
Defined.

(** C6, as stated, fails: two changes of the index file of one repository,
    50 ms apart, send two reload commands, and the backend runs two
    reloads. *)
Lemma two_rapid_events_reload_twice :
  shouldAutoReload index_saved = true /\
  shouldAutoReload index_saved_again = true /\
  repository_id index_saved = repository_id index_saved_again /\
  reloads (run counting_reload no_config
             [Deliver index_saved; Deliver index_saved_again] (app_initial 0%nat)) =
  [("repo-a", "/home/u/repo-a"); ("repo-a", "/home/u/repo-a")] /\
  backend (run counting_reload no_config
             [Deliver index_saved; Deliver index_saved_again; Resume 0; Resume 0]
             (app_initial 0%nat)) = 2%nat.
Proof. repeat split; by vm_compute. Qed.

Definition readme_saved : FileChangeEvent :=
  mkEvent "repo-a" "/home/u/repo-a/README.md" Modified "2024-05-01T10:00:00.000Z".

(** C7 (amended). An event whose path, in lower case, contains none of
    agent_index.yml, agent_index.yaml and .md starts no reload: its
    delivery sends no command, leaves no call in flight, does not touch the
    backend (so the served snapshot is the same) and shows no notification;
    the callback it leaves subscribed never starts a reload either. The
    listener does not look at the directory of the path. *)
Theorem unimportant_event_starts_no_reload
  (B : Type) (payload : FileChangeEvent) (app : App B) :
  Js.includes "agent_index.yml" (Js.toLowerCase (file_path payload)) = false ->
  Js.includes "agent_index.yaml" (Js.toLowerCase (file_path payload)) = false ->
  Js.includes ".md" (Js.toLowerCase (file_path payload)) = false ->
  in_flight (on_file_change payload app) = in_flight app /\
  sent (on_file_change payload app) = sent app /\
  backend (on_file_change payload app) = backend app /\
  notification (stores (on_file_change payload app)) = notification (stores app) /\
  (forall (enabled : bool) (later : App B),
      auto_reload_callback payload enabled later = later).
Proof.
  intros Hyml Hyaml Hmd.
  assert (shouldAutoReload payload = false) as Hskip.
  { by rewrite shouldAutoReload_patterns, Hyml, Hyaml, Hmd. }
  destruct (on_file_change_skip payload app Hskip) as (Hfl & Hsent & Hb & Hn).
  repeat split; try done.
  intros enabled later. apply auto_reload_callback_skip.
  by rewrite Hskip, andb_false_r.
Qed.

Definition lockfile_saved : FileChangeEvent :=
  mkEvent "repo-a" "/home/u/repo-a/package-lock.json" Modified
          "2024-05-01T10:00:00.000Z".

Lemma unimportant_event_starts_no_reload_witness :
  sent (on_file_change lockfile_saved (app_initial 0%nat)) = [] /\
  in_flight (on_file_change lockfile_saved (app_initial 0%nat)) = [] /\
  backend (on_file_change lockfile_saved (app_initial 0%nat)) = 0%nat.
Proof.
  destruct (unimportant_event_starts_no_reload nat lockfile_saved (app_initial 0%nat)
              eq_refl eq_refl eq_refl) as (Hfl & Hsent & Hb & _).
  repeat split; assumption.
Defined.

(** C7, as stated, fails: a change of README.md at the top of the
    repository, outside [.agent_library], sends a reload command. *)
Lemma event_outside_agent_library_reloads :
  Js.includes ".agent_library" (file_path readme_saved) = false /\
  reloads (on_file_change readme_saved (app_initial 0%nat)) =
  [("repo-a", "/home/u/repo-a/README.md")] /\
  backend (run counting_reload no_config
             [Deliver readme_saved; Resume 0] (app_initial 0%nat)) = 1%nat.
Proof. repeat split; by vm_compute. Qed.

(** The [catch] block of [reloadAgentLibrary], whatever the backend is:
    when the command answers with an error, the page sets the notification
    built from the repository and the error, and passes on the backend as
    the command has left it. *)
Lemma resume_reload_error
  (B : Type) (reload : string -> string -> B -> Result string string * B)
  (getCurrentConfig : AppConfig -> B -> Result AppConfig string * (AppConfig * B))
  (k : nat) (app : App B) (repositoryId repoPath e : string) (b : B) :
  in_flight app !! k = Some (AwaitReload repositoryId repoPath) ->
  reload repositoryId repoPath (backend app) = (Err e, b) ->
  resume reload getCurrentConfig k app =
  mkApp (mkStores (fileChangeEvents (stores app)) (watchedRepositories (stores app))
                  (autoReloadEnabled (stores app)) (autoReload_subscribers (stores app))
                  (appConfig (stores app))
                  (Some (mkNotification error
                           ("自動更新に失敗しました (リポジトリ: " +:+ repositoryId
                            +:+ "): " +:+ e))))
        (delete k (in_flight app)) (sent app) b.
Proof. intros Hk Hreload. unfold resume. by rewrite Hk, Hreload. Qed.

(** C8. When the re-parse behind a reload fails, the backend is left
    exactly as it was: the registry of servers, the listeners, the tasks
    and the library served for each repository are untouched, and no server
    is stopped. On the page the call ends in its [catch] block: the
    notification becomes the error notification whose message names the
    repository and the error of the parser, the other stores keep their
    values, the call leaves the list of suspended calls, no further command
    is sent, and nothing is thrown. *)
Theorem failed_reload_keeps_snapshot
  (parse : string -> Result JsonRpc.AgentLibrary string) (reply : string)
  (getCurrentConfig :
     AppConfig -> Backend.State -> Result AppConfig string * (AppConfig * Backend.State))
  (k : nat) (app : App Backend.State) (repositoryId repoPath e : string) :
  in_flight app !! k = Some (AwaitReload repositoryId repoPath) ->
  parse repoPath = Err e ->
  let app' := resume (Backend.reload_agent_library parse reply) getCurrentConfig k app in
  backend app' = backend app /\
  Backend.servers (backend app') = Backend.servers (backend app) /\
  Os.held (Backend.world (backend app')) = Os.held (Backend.world (backend app)) /\
  Os.tasks (Backend.world (backend app')) = Os.tasks (Backend.world (backend app)) /\
  (forall i, Backend.served i (backend app') = Backend.served i (backend app)) /\
  notification (stores app') =
  Some (mkNotification error
          ("自動更新に失敗しました (リポジトリ: " +:+ repositoryId +:+ "): " +:+ e)) /\
  fileChangeEvents (stores app') = fileChangeEvents (stores app) /\
  watchedRepositories (stores app') = watchedRepositories (stores app) /\
  autoReloadEnabled (stores app') = autoReloadEnabled (stores app) /\
  autoReload_subscribers (stores app') = autoReload_subscribers (stores app) /\
  appConfig (stores app') = appConfig (stores app) /\
  in_flight app' = delete k (in_flight app) /\
  sent app' = sent app.
Proof.
  intros Hk Hparse app'. subst app'.
  rewrite (resume_reload_error _ _ getCurrentConfig k app repositoryId repoPath e
             (backend app) Hk)
    by (unfold Backend.reload_agent_library; by rewrite Hparse).
  cbn [backend stores in_flight sent notification fileChangeEvents
       watchedRepositories autoReloadEnabled autoReload_subscribers appConfig].
  repeat split; reflexivity.
Qed.

Definition reload_in_flight : App Backend.State :=
  mkApp stores_initial
        [AwaitReload "repo-a" "/home/u/repo-a"]
        [call_reload_agent_library "repo-a" "/home/u/repo-a"]
        (Backend.mkBackend (RegistryFacts.one_server 9501) (RegistryFacts.one_world 9501)).

Lemma failed_reload_keeps_snapshot_witness :
  let app' :=
    resume (Backend.reload_agent_library RegistryFacts.no_parser "reloaded")
           no_config 0 reload_in_flight in
  Backend.served "repo-a" (backend app') = Some RegistryFacts.empty_library /\
  Os.held (Backend.world (backend app')) = {[ 9501%Z ]} /\
  notification (stores app') =
  Some (mkNotification error
          "自動更新に失敗しました (リポジトリ: repo-a): agent_index.yml not found") /\
  in_flight app' = [] /\
  sent app' = [call_reload_agent_library "repo-a" "/home/u/repo-a"].
Proof.
  destruct (failed_reload_keeps_snapshot RegistryFacts.no_parser "reloaded"
              no_config 0 reload_in_flight
              "repo-a" "/home/u/repo-a" "agent_index.yml not found"
              eq_refl eq_refl)
    as (_ & _ & Hheld & _ & Hserved & Hnote & _ & _ & _ & _ & _ & Hflight & Hsent).
  cbv zeta. rewrite Hserved, Hheld, Hnote, Hflight, Hsent.
  repeat split; reflexivity.
Defined.

Lemma serving_on_swap (p : Z) (library old : JsonRpc.AgentLibrary) (ts : list Os.Task) :
  head (omap (Backend.answers_on p) ts) = Some old ->
  head (omap (Backend.answers_on p) (Backend.swap_task p library <$> ts)) = Some library.
Proof.
  induction ts as [|t ts IH]; [done|].
  rewrite fmap_cons. cbn [omap list_omap].
  destruct t as [q l|q l|]; cbn [Backend.answers_on Backend.swap_task]; try exact IH.
  destruct (decide (q = p)) as [->|Hne]; cbn [Backend.answers_on].
  - by rewrite decide_True.
  - rewrite decide_False by done. exact IH.
Qed.

(** A reload that parses swaps the library served for the repository; the
    listeners are kept. *)
Lemma successful_reload_swaps_snapshot
  (parse : string -> Result JsonRpc.AgentLibrary string) (reply : string)
  (b : Backend.State) (repositoryId repoPath : string)
  (library old : JsonRpc.AgentLibrary) :
  parse repoPath = Ok library ->
  Backend.served repositoryId b = Some old ->
  Backend.served repositoryId
    (Backend.reload_agent_library parse reply repositoryId repoPath b).2
  = Some library /\
  Os.held (Backend.world (Backend.reload_agent_library parse reply repositoryId repoPath b).2)
  = Os.held (Backend.world b).
Proof.
  intros Hparse Hold. unfold Backend.reload_agent_library. rewrite Hparse. simpl.
  unfold Backend.served in *.
  destruct (Backend.servers b !! repositoryId) as [server|] eqn:Hs; [|done].
  cbn [Backend.servers Backend.world]. rewrite Hs. split; [|done].
  unfold Backend.serving_on, Backend.swap in *. cbn [Os.tasks].
  by apply serving_on_swap with old.
Qed.

End FileWatcherFacts.

(** ** More on the JSON-RPC engine *)

Module EngineFacts.
Import Json JsonRpc.

(** X1. Whatever the request, [handle_jsonrpc] answers with the three CORS
    headers and an envelope of version 2.0 under the id of the request that
    carries either a result or an error, never both and never neither. The
    [jsonrpc] field of the request is not looked at: requests that differ
    only in it get the same answer. *)
Theorem handle_jsonrpc_envelope
  (from_value : Value -> Result PromptsGetParams JsonRpcError)
  (resources_list resources_read : option Value -> McpServerState -> Result Value JsonRpcError)
  (state : McpServerState) (request : JsonRpcRequest) :
  let answer := handle_jsonrpc from_value resources_list resources_read state request in
  answer.1 =
    [("Access-Control-Allow-Origin", "*");
     ("Access-Control-Allow-Methods", "POST, GET, OPTIONS");
     ("Access-Control-Allow-Headers", "Content-Type, Authorization")] /\
  jsonrpc answer.2 = "2.0" /\
  id answer.2 = req_id request /\
  ((exists v, result answer.2 = Some v /\ error answer.2 = None) \/
   (exists e, result answer.2 = None /\ error answer.2 = Some e)) /\
  (forall version : string,
      handle_jsonrpc from_value resources_list resources_read state
        (mkRequest version (req_id request) (req_method request) (req_params request))
      = answer).
Proof.
  unfold handle_jsonrpc. simpl.
  repeat case_decide;
    try (match goal with |- context [respond _ ?r] => destruct r as [v|e] end);
    simpl; repeat split; eauto.
Qed.

(** [initialize] always succeeds, whatever the parameters and the
    served libraries: the result names protocol version 2024-11-05, declares
    prompts and resources without list-change or subscription support, and
    gives the server's name and version. *)
Theorem initialize_always_succeeds
  (from_value : Value -> Result PromptsGetParams JsonRpcError)
  (resources_list resources_read : option Value -> McpServerState -> Result Value JsonRpcError)
  (libraries : list AgentLibrary) (info : ServerInfo)
  (version : string) (request_id params : option Value) :
  (handle_jsonrpc from_value resources_list resources_read (mkState libraries info)
     (mkRequest version request_id "initialize" params)).2 =
  mkResponse "2.0" request_id
    (Some (Object
             [("protocolVersion", String "2024-11-05");
              ("capabilities",
               Object [("prompts", Object [("listChanged", Bool false)]);
                       ("resources", Object [("subscribe", Bool false);
                                             ("listChanged", Bool false)])]);
              ("serverInfo",
               Object [("name", String (server_name info));
                       ("version", String (server_version info))])]))
    None.
Proof. reflexivity. Qed.

Lemma search_prompts_some (name : string) (ps : list Prompt) (p : Prompt) :
  p ∈ ps -> prompt_name p = name ->
  exists q, q ∈ ps /\ prompt_name q = name /\
            search_prompts name ps = Some (JsonRpcFacts.answer_for q).
Proof.
  induction ps as [|x ps IH]; intros Hin Hname.
  - by apply elem_of_nil in Hin.
  - simpl. destruct (decide (prompt_name x = name)) as [Hx|Hx].
    + exists x. split; [apply list_elem_of_here|done].
    + apply elem_of_cons in Hin as [->|Hin]; [done|].
      destruct (IH Hin Hname) as (q & Hq & Hqn & Hs).
      exists q. split; [by apply list_elem_of_further|done].
Qed.

Lemma search_prompts_inv (name : string) (ps : list Prompt) (r : PromptsGetResult) :
  search_prompts name ps = Some r ->
  exists q, q ∈ ps /\ prompt_name q = name /\ r = JsonRpcFacts.answer_for q.
Proof.
  induction ps as [|x ps IH]; simpl; [done|].
  destruct (decide (prompt_name x = name)) as [Hx|Hx].
  - intros [= <-]. exists x. split; [apply list_elem_of_here|done].
  - intros Hs. destruct (IH Hs) as (q & Hq & Hqn & Hr).
    exists q. split; [by apply list_elem_of_further|done].
Qed.

(** The entry of [prompts/list] for a prompt. *)
Definition listed (p : Prompt) : Value :=
  Object [("name", String (prompt_name p));
          ("description", String (prompt_description p));
          ("arguments", Null)].

(** X3. [prompts/list] never fails: it lists every prompt of every served
    library once, in the order of the libraries and of their prompts, with
    its name and description (an empty list when nothing is served). And
    every name it lists can be fetched: [prompts/get] for the name of a
    served prompt succeeds with the description and content of a served
    prompt of that name. *)
Theorem prompts_list_then_get
  (from_value : Value -> Result PromptsGetParams JsonRpcError)
  (state : McpServerState) (params : option Value) :
  handle_prompts_list params state =
    Ok (Object [("prompts", Array (listed <$> all_prompts (agent_libraries state)))]) /\
  (forall (p : Prompt) (v : Value) (arguments : option Value),
      p ∈ all_prompts (agent_libraries state) ->
      from_value v = Ok (mkGetParams (prompt_name p) arguments) ->
      exists q,
        q ∈ all_prompts (agent_libraries state) /\
        prompt_name q = prompt_name p /\
        handle_prompts_get from_value (Some v) state =
        Ok (PromptsGetResult_to_value (JsonRpcFacts.answer_for q))).
Proof.
  split.
  - unfold handle_prompts_list. rewrite map_map. reflexivity.
  - intros p v arguments Hin Hdec. unfold handle_prompts_get.
    rewrite Hdec, JsonRpcFacts.search_libraries_flat. simpl.
    destruct (search_prompts_some (prompt_name p) _ p Hin eq_refl) as (q & Hq & Hqn & ->).
    by exists q.
Qed.

(** X4. [prompts/get] fails in three cases only: the request has no
    parameters (-32602, "Invalid params"); the parameters do not decode (the
    decoder's error); or no served prompt has the requested name (-32602,
    with the name in the message). *)
Theorem handle_prompts_get_failures
  (from_value : Value -> Result PromptsGetParams JsonRpcError)
  (state : McpServerState) (params : option Value) (e : JsonRpcError) :
  handle_prompts_get from_value params state = Err e ->
  (params = None /\ e = mkError (-32602) "Invalid params" None) \/
  (exists v, params = Some v /\ from_value v = Err e) \/
  (exists v p,
      params = Some v /\ from_value v = Ok p /\
      e = mkError (-32602) ("Prompt '" +:+ params_name p +:+ "' not found") None /\
      forall q, q ∈ all_prompts (agent_libraries state) -> prompt_name q ≠ params_name p).
Proof.
  unfold handle_prompts_get. destruct params as [v|].
  - destruct (from_value v) as [p|e'] eqn:Hdec.
    + rewrite JsonRpcFacts.search_libraries_flat.
      destruct (search_prompts _ _) as [r|] eqn:Hs; [done|].
      intros [= <-]. right. right. exists v, p. repeat split; try done.
      intros q Hq Hname.
      destruct (search_prompts_some _ _ q Hq Hname) as (q' & _ & _ & Hfound).
      congruence.
    + intros [= <-]. right. left. by exists v.
  - intros [= <-]. by left.
Qed.

Lemma handle_prompts_get_failures_witness :
  (exists v p,
      Some JsonRpcFacts.get_c = Some v /\ params_of_object v = Ok p /\
      mkError (-32602) "Prompt 'c' not found" None =
      mkError (-32602) ("Prompt '" +:+ params_name p +:+ "' not found") None /\
      forall q, q ∈ all_prompts (agent_libraries JsonRpcFacts.state_ab) ->
                prompt_name q ≠ params_name p).
Proof.
  destruct (handle_prompts_get_failures params_of_object JsonRpcFacts.state_ab
              (Some JsonRpcFacts.get_c) (mkError (-32602) "Prompt 'c' not found" None)
              eq_refl) as [[Hnone _]|[(v & Hv & Hdec)|Hmissing]].
  - discriminate Hnone.
  - injection Hv as <-. discriminate Hdec.
  - exact Hmissing.
Defined.

(** Two libraries that both declare a prompt [a]. *)
Definition state_twice : McpServerState :=
  mkState [mkLibrary "one" "first library" [mkPrompt "a" "first" "# A1"];
           mkLibrary "two" "second library" [mkPrompt "a" "second" "# A2"]]
          (mkServerInfo "librarian-mcp-server" "1.0.0").

(** C2, as stated, fails: the second library serves a prompt named [a],
    yet a request for [a] is answered with the description and the content
    of the prompt of the first library, not with those of that prompt. *)
Lemma handle_prompts_get_not_that_prompt :
  mkPrompt "a" "second" "# A2" ∈ all_prompts (agent_libraries state_twice) /\
  prompt_name (mkPrompt "a" "second" "# A2") = "a" /\
  params_of_object JsonRpcFacts.get_a = Ok (mkGetParams "a" None) /\
  handle_prompts_get params_of_object (Some JsonRpcFacts.get_a) state_twice =
  Ok (Object
        [("description", String "first");
         ("messages",
          Array [Object [("role", String "user");
                         ("content",
                          Object [("type", String "text"); ("text", String "# A1")])]])]) /\
  handle_prompts_get params_of_object (Some JsonRpcFacts.get_a) state_twice ≠
  Ok (Object
        [("description", String "second");
         ("messages",
          Array [Object [("role", String "user");
                         ("content",
                          Object [("type", String "text"); ("text", String "# A2")])]])]).
Proof.
  split; [apply list_elem_of_further, list_elem_of_here|].
  split; [reflexivity|]. split; [reflexivity|]. split; [reflexivity|].
  vm_compute. discriminate.
Qed.

(** X5. When several served prompts share a name, [prompts/get] answers
    with the first of them, in the order of the libraries and of their
    prompts; later ones are never returned. *)
Theorem handle_prompts_get_first_of_duplicates
  (from_value : Value -> Result PromptsGetParams JsonRpcError)
  (state : McpServerState) (v : Value) (params : PromptsGetParams)
  (before : list Prompt) (prompt : Prompt) (after : list Prompt) :
  from_value v = Ok params ->
  all_prompts (agent_libraries state) = before ++ prompt :: after ->
  (forall q, q ∈ before -> prompt_name q ≠ params_name params) ->
  prompt_name prompt = params_name params ->
  handle_prompts_get from_value (Some v) state =
  Ok (Object
        [("description", String (prompt_description prompt));
         ("messages",
          Array [Object [("role", String "user");
                         ("content",
                          Object [("type", String "text");
                                  ("text", String (prompt_content prompt))])]])]).
Proof.
  intros Hdec Hall Hno Hname. unfold handle_prompts_get.
  rewrite Hdec, JsonRpcFacts.search_libraries_flat, Hall.
  by rewrite (JsonRpcFacts.search_prompts_first _ _ _ _ Hno Hname).
Qed.

Lemma handle_prompts_get_first_of_duplicates_witness :
  handle_prompts_get params_of_object (Some JsonRpcFacts.get_a) state_twice =
  Ok (Object
        [("description", String "first");
         ("messages",
          Array [Object [("role", String "user");
                         ("content",
                          Object [("type", String "text"); ("text", String "# A1")])]])]).
Proof.
  apply (handle_prompts_get_first_of_duplicates params_of_object state_twice
           JsonRpcFacts.get_a (mkGetParams "a" None)
           [] (mkPrompt "a" "first" "# A1") [mkPrompt "a" "second" "# A2"]).
  - reflexivity.
  - reflexivity.
  - intros q Hq. by apply elem_of_nil in Hq.
  - reflexivity.
Defined.

End EngineFacts.

(** ** More on ports and server start-up *)

Module ServerFacts.
Import Os PortAllocator JsonRpc AxumServer.

(** The search reads the held ports only. *)
Lemma find_available_port_held (w1 w2 : World) :
  held w1 = held w2 ->
  (find_available_port w1).1 = (find_available_port w2).1.
Proof.
  intros Hheld.
  pose proof (PortAllocatorFacts.find_available_port_outcome w1) as H1.
  pose proof (PortAllocatorFacts.find_available_port_outcome w2) as H2.
  destruct (find_available_port w1) as [[p1|e1] w1'];
    destruct (find_available_port w2) as [[p2|e2] w2']; simpl.
  - destruct H1 as (Hr1 & Hf1 & Hb1 & _), H2 as (Hr2 & Hf2 & Hb2 & _).
    f_equal. destruct (Z.lt_trichotomy p1 p2) as [Hlt|[Heq|Hgt]]; [|done|].
    + destruct Hf1. rewrite Hheld. apply Hb2. lia.
    + destruct Hf2. rewrite <- Hheld. apply Hb1. lia.
  - destruct H1 as (Hr1 & Hf1 & _), H2 as (_ & Hall & _).
    destruct Hf1. rewrite Hheld. by apply Hall.
  - destruct H1 as (_ & Hall & _), H2 as (Hr2 & Hf2 & _).
    destruct Hf2. rewrite <- Hheld. by apply Hall.
  - destruct H1 as (-> & _), H2 as (-> & _). done.
Qed.

(** X6. The port search reserves nothing: a search that follows another,
    with no bind in between, gives the same answer, so the same port can be
    handed out twice; the only trace of a search is the list of its probes. *)
Theorem find_available_port_reserves_nothing (w : World) :
  (find_available_port (find_available_port w).2).1 = (find_available_port w).1 /\
  held (find_available_port w).2 = held w /\
  tasks (find_available_port w).2 = tasks w.
Proof.
  pose proof (PortAllocatorFacts.find_available_port_outcome w) as H.
  assert (held (find_available_port w).2 = held w /\
          tasks (find_available_port w).2 = tasks w) as [Hheld Htasks].
  { destruct (find_available_port w) as [[p|e] w']; simpl.
    - by destruct H as (_ & _ & _ & _ & ? & ?).
    - by destruct H as (_ & _ & _ & ? & ?). }
  split; [|done]. by apply find_available_port_held.
Qed.

(** X7. [start_mcp_server] with a given port uses it without a range check:
    when the port (an unprivileged one, 1024 to 65535) is free, the server
    is bound to it and serves the given state, also outside 9500 to 9599.
    A second server asked for the same port then fails with the bind error
    and leaves the first one serving alone. *)
Theorem start_mcp_server_given_port
  (state state' : McpServerState) (p : Z) (r : Runtime) :
  (1024 <= p <= 65535)%Z ->
  p ∉ held (os r) ->
  let first := start_mcp_server state (Some p) r in
  let second := start_mcp_server state' (Some p) first.2 in
  first.1 = Ok p /\
  held (os first.2) = {[p]} ∪ held (os r) /\
  serving first.2 = serving r ++ [(p, state)] /\
  second.1 = Err "Address already in use" /\
  serving second.2 = serving first.2 /\
  held (os second.2) = held (os first.2).
Proof.
  intros _ Hfree. unfold start_mcp_server. simpl.
  rewrite (PortAllocatorFacts.bind_free _ _ Hfree). simpl.
  rewrite PortAllocatorFacts.bind_held
    by (simpl; apply elem_of_union; left; by apply elem_of_singleton).
  done.
Qed.

Definition idle : Runtime := mkRuntime (mkWorld ∅ [] []) [].

Lemma start_mcp_server_given_port_witness :
  (start_mcp_server McpServerState_new (Some 9999%Z) idle).1 = Ok 9999%Z /\
  (start_mcp_server McpServerState_new (Some 9999%Z)
     (start_mcp_server McpServerState_new (Some 9999%Z) idle).2).1
  = Err "Address already in use".
Proof.
  destruct (start_mcp_server_given_port McpServerState_new McpServerState_new
              9999%Z idle)
    as (H1 & _ & _ & H2 & _).
  - lia.
  - apply (bool_decide_unpack _). vm_compute. exact I.
  - split; [exact H1|exact H2].
Defined.

Lemma start_mcp_server_search (state : McpServerState) (r : Runtime) (p : Z) (r1 : Runtime) :
  start_mcp_server state None r = (Ok p, r1) ->
  (9500 <= p <= 9599)%Z /\ (p ∉ held (os r)) /\
  held (os r1) = {[p]} ∪ held (os r) /\
  serving r1 = serving r ++ [(p, state)].
Proof.
  unfold start_mcp_server.
  pose proof (PortAllocatorFacts.find_available_port_outcome (os r)) as H.
  destruct (find_available_port (os r)) as [[q|e] w1]; [|done].
  destruct H as (Hq & Hfree & _ & _ & Hheld & _).
  rewrite PortAllocatorFacts.bind_free by (by rewrite Hheld).
  intros [= <- <-]. simpl. by rewrite Hheld.
Qed.

(** X8. Two servers started one after the other without a port get two
    different ports of the range 9500 to 9599, and both end up serving. *)
Theorem start_mcp_server_twice_distinct
  (state1 state2 : McpServerState) (r r1 r2 : Runtime) (p1 p2 : Z) :
  start_mcp_server state1 None r = (Ok p1, r1) ->
  start_mcp_server state2 None r1 = (Ok p2, r2) ->
  p1 ≠ p2 /\
  (9500 <= p1 <= 9599)%Z /\ (9500 <= p2 <= 9599)%Z /\
  serving r2 = serving r ++ [(p1, state1); (p2, state2)].
Proof.
  intros H1 H2.
  apply start_mcp_server_search in H1 as (Hp1 & Hf1 & Hh1 & Hs1).
  apply start_mcp_server_search in H2 as (Hp2 & Hf2 & Hh2 & Hs2).
  split; [|split; [done|split; [done|]]].
  - intros ->. apply Hf2. rewrite Hh1.
    apply elem_of_union. left. by apply elem_of_singleton.
  - by rewrite Hs2, Hs1, <- app_assoc.
Qed.

Lemma start_mcp_server_twice_distinct_witness :
  9500%Z ≠ 9501%Z /\
  (9500 <= 9500 <= 9599)%Z /\ (9500 <= 9501 <= 9599)%Z /\
  serving (start_mcp_server EngineFacts.state_twice None
             (start_mcp_server McpServerState_new None idle).2).2
  = serving idle ++ [(9500%Z, McpServerState_new); (9501%Z, EngineFacts.state_twice)].
Proof.
  apply (start_mcp_server_twice_distinct McpServerState_new EngineFacts.state_twice idle
           (start_mcp_server McpServerState_new None idle).2
           (start_mcp_server EngineFacts.state_twice None
              (start_mcp_server McpServerState_new None idle).2).2
           9500%Z 9501%Z); by vm_compute.
Defined.

End ServerFacts.

(** ** The registry over sequences of commands *)

Module RegistryRunFacts.
Import Os PortAllocator JsonRpc Registry RegistryRun.

(** What a start does, case by case. *)
Lemma start_outcome
  (parse : string -> Result AgentLibrary string)
  (repository_id repo_path : string)
  (servers : gmap string McpServerHandle) (w : World) :
  let out := start_repository_mcp_server parse repository_id repo_path servers w in
  (is_Some (servers !! repository_id) /\ out = (Ok "Server already running", servers, w))
  \/
  (servers !! repository_id = None /\
   out.1.2 = servers /\ held out.2 = held w /\ tasks out.2 = tasks w /\
   (length (attempts w) < length (attempts out.2))%nat /\
   ((out.1.1 = Err exhausted /\ forall q, (9500 <= q <= 9599)%Z -> q ∈ held w) \/
    (exists e, parse repo_path = Err e /\ out.1.1 = Err e)))
  \/
  (servers !! repository_id = None /\
   exists p library,
     parse repo_path = Ok library /\
     out.1.1 = Ok ("MCP server started on port " +:+ pretty p) /\
     (9500 <= p <= 9599)%Z /\ (p ∉ held w) /\
     out.1.2 = <[repository_id := mkHandle p (length (tasks w)) repo_path]> servers /\
     held out.2 = held w /\
     tasks out.2 = tasks w ++ [Scheduled p library] /\
     (forall q, (9500 <= q < p)%Z -> q ∈ held w)).
Proof.
  unfold start_repository_mcp_server.
  destruct (decide (is_Some (servers !! repository_id))) as [Hsome|Hnone]; [by left|].
  right. assert (servers !! repository_id = None) as Hn.
  { destruct (servers !! repository_id) eqn:E; [|done]. destruct Hnone. by eexists. }
  pose proof (PortAllocatorFacts.find_available_port_outcome w) as H.
  destruct (find_available_port w) as [[p|e] w1].
  - destruct H as (Hp & Hfree & Hfirst & Hlog & Hheld & Htasks).
    assert (length (attempts w) < length (attempts w1))%nat as Hlen.
    { rewrite Hlog, length_app, length_seqZ. lia. }
    destruct (parse repo_path) as [library|e] eqn:Hparse.
    + right. split; [done|]. exists p, library.
      simpl. rewrite Htasks, Hheld. done.
    + left. simpl. repeat split; try done. right. by exists e.
  - left. destruct H as (-> & Hall & Hlog & Hheld & Htasks). simpl.
    repeat split; try done.
    + rewrite Hlog, length_app, length_seqZ. lia.
    + by left.
Qed.

(** X9. A start that fails, because the range is exhausted or because the
    library does not parse, leaves the registry, the held ports and the
    tasks as they were. The ports are probed before the library is parsed,
    so even a start that fails on the library has probed the range. *)
Theorem start_failure_changes_nothing
  (parse : string -> Result AgentLibrary string)
  (repository_id repo_path : string)
  (servers : gmap string McpServerHandle) (w : World) (e : string) :
  (start_repository_mcp_server parse repository_id repo_path servers w).1.1 = Err e ->
  let out := start_repository_mcp_server parse repository_id repo_path servers w in
  out.1.2 = servers /\ held out.2 = held w /\ tasks out.2 = tasks w /\
  (length (attempts w) < length (attempts out.2))%nat /\
  ((e = "No available ports in range 9500-9599" /\
    forall q, (9500 <= q <= 9599)%Z -> q ∈ held w) \/
   parse repo_path = Err e).
Proof.
  intros Herr. simpl.
  destruct (start_outcome parse repository_id repo_path servers w)
    as [[_ Hrun]|[(_ & Hs & Hh & Ht & Hl & Hwhy)|(_ & p & lib & _ & Hok & _)]].
  - rewrite Hrun in Herr. done.
  - repeat split; try done.
    destruct Hwhy as [[He Hall]|(e' & Hparse & He)].
    + left. rewrite He in Herr. by injection Herr as <-.
    + right. rewrite He in Herr. by injection Herr as <-.
  - rewrite Hok in Herr. done.
Qed.

Lemma start_failure_changes_nothing_witness :
  (start_repository_mcp_server RegistryFacts.no_parser "repo-b" "/home/u/repo-b"
     (RegistryFacts.one_server 9501) (RegistryFacts.one_world 9501)).1.2
  = RegistryFacts.one_server 9501 /\
  held (start_repository_mcp_server RegistryFacts.no_parser "repo-b" "/home/u/repo-b"
          (RegistryFacts.one_server 9501) (RegistryFacts.one_world 9501)).2
  = held (RegistryFacts.one_world 9501).
Proof.
  destruct (start_failure_changes_nothing RegistryFacts.no_parser "repo-b" "/home/u/repo-b"
              (RegistryFacts.one_server 9501) (RegistryFacts.one_world 9501)
              "agent_index.yml not found" eq_refl) as (Hs & Hh & _).
  split; [exact Hs|exact Hh].
Defined.




























End RegistryRunFacts.

(** ** Parsing a library from disk *)

Module LibraryParserFacts.
Import LibraryParser.

(** Where the prompt of an endpoint is looked for. *)
Definition prompt_path (repo_path : string) (endpoint : McpEndpoint) : string :=
  join (join repo_path ".agent_library") (prompt_file endpoint).

Definition present (fs : Fs) (repo_path : string) (endpoint : McpEndpoint) : Prop :=
  exists_ fs (prompt_path repo_path endpoint) = true.

#[global] Instance present_dec (fs : Fs) (repo_path : string) (endpoint : McpEndpoint) :
  Decision (present fs repo_path endpoint).
Proof. unfold present. apply _. Defined.

(** The prompt made from an endpoint whose file exists. *)
Definition prompt_of (fs : Fs) (repo_path : string) (endpoint : McpEndpoint) : Prompt :=
  mkPrompt (endpoint_id endpoint) (label endpoint) (endpoint_description endpoint)
           (endpoint_category endpoint)
           match read_to_string fs (prompt_path repo_path endpoint) with
           | Ok text => text
           | Err _ => ""
           end.

Lemma load_prompts_filter (fs : Fs) (repo_path : string) (endpoints : list McpEndpoint) :
  load_prompts fs repo_path endpoints =
  prompt_of fs repo_path <$> filter (present fs repo_path) endpoints.
Proof.
  induction endpoints as [|e endpoints IH]; [done|].
  cbn [load_prompts]. rewrite filter_cons. fold (prompt_path repo_path e).
  destruct (decide (present fs repo_path e)) as [He|He]; unfold present in He.
  - rewrite He, fmap_cons, <- IH. done.
  - apply not_true_is_false in He. by rewrite He.
Qed.

Lemma parse_agent_library_ok
  (fs : Fs) (from_str : string -> Result AgentIndex string)
  (repo_path : string) (library : AgentLibrary) :
  parse_agent_library fs from_str repo_path = Ok library ->
  exists text agent_index,
    exists_ fs (join repo_path ".agent_library/agent_index.yml") = true /\
    read_to_string fs (join repo_path ".agent_library/agent_index.yml") = Ok text /\
    from_str text = Ok agent_index /\
    library = mkLibrary (index_name agent_index) (index_description agent_index)
                (prompt_of fs repo_path <$>
                 filter (present fs repo_path) (mcp_endpoints agent_index)).
Proof.
  unfold parse_agent_library.
  destruct (exists_ fs _) eqn:Hex; simpl; [|done].
  destruct (read_to_string fs _) as [text|e] eqn:Hread; [|done].
  destruct (from_str text) as [agent_index|e] eqn:Hyaml; [|done].
  intros [= <-]. exists text, agent_index. by rewrite load_prompts_filter.
Qed.

(** X13. A library that parses holds one prompt for each endpoint of the
    index whose prompt file exists, in the order of the index, with the id,
    label, description and category of the endpoint. Endpoints whose file is
    missing are left out without any error, so the library can hold fewer
    prompts than the index declares, and holds as many exactly when every
    file exists. *)
Theorem parse_agent_library_prompts
  (fs : Fs) (from_str : string -> Result AgentIndex string)
  (repo_path : string) (library : AgentLibrary) :
  parse_agent_library fs from_str repo_path = Ok library ->
  exists text agent_index,
    read_to_string fs (join repo_path ".agent_library/agent_index.yml") = Ok text /\
    from_str text = Ok agent_index /\
    name library = index_name agent_index /\
    library_description library = index_description agent_index /\
    (fun p => (id p, title p, description p, category p)) <$> prompts library =
    (fun e => (endpoint_id e, label e, endpoint_description e, endpoint_category e)) <$>
      filter (present fs repo_path) (mcp_endpoints agent_index) /\
    (length (prompts library) <= length (mcp_endpoints agent_index))%nat /\
    (length (prompts library) = length (mcp_endpoints agent_index) <->
     forall e, e ∈ mcp_endpoints agent_index -> present fs repo_path e).
Proof.
  intros Hok. apply parse_agent_library_ok in Hok as (text & index & _ & Hread & Hyaml & ->).
  exists text, index. cbn [name library_description prompts].
  split; [done|]. split; [done|]. split; [done|]. split; [done|]. split.
  - rewrite <- list_fmap_compose. by apply list_fmap_ext.
  - rewrite length_fmap. split; [apply length_filter|].
    split.
    + intros Hlen e He.
      assert (filter (present fs repo_path) (mcp_endpoints index) = mcp_endpoints index)
        as Hall.
      { clear He. induction (mcp_endpoints index) as [|x l IH]; [done|].
        rewrite filter_cons in *. case_decide.
        - f_equal. apply IH. simpl in Hlen. lia.
        - pose proof (length_filter (present fs repo_path) l). simpl in Hlen. lia. }
      rewrite <- Hall in He. by apply list_elem_of_filter in He as [He _].
    + intros Hall. f_equal. induction (mcp_endpoints index) as [|x l IH]; [done|].
      rewrite filter_cons, decide_True by (apply Hall, list_elem_of_here).
      f_equal. apply IH. intros e He. apply Hall. by apply list_elem_of_further.
Qed.

(** A repository whose index declares [a] and [b]; only [a.md] is on disk. *)
Definition disk : Fs :=
  mkFs (fun p => bool_decide (p ∈ ["/r/.agent_library"; "/r/.agent_library/agent_index.yml";
                                   "/r/.agent_library/a.md"]))
       (fun p => bool_decide (p = "/r/.agent_library"))
       (fun p => bool_decide (p ∈ ["/r/.agent_library/agent_index.yml";
                                   "/r/.agent_library/a.md"]))
       (fun p => if decide (p = "/r/.agent_library/agent_index.yml") then Ok "index"
                 else if decide (p = "/r/.agent_library/a.md") then Ok "# A"
                 else Err "No such file or directory").

Definition index_ab : AgentIndex :=
  mkIndex "lib" "two endpoints"
    [mkEndpoint "a" "A" "first" "a.md" "guides";
     mkEndpoint "b" "B" "second" "b.md" "guides"].

Definition yaml : string -> Result AgentIndex string :=
  fun text => if decide (text = "index") then Ok index_ab else Err "invalid".

Lemma parse_agent_library_prompts_witness :
  parse_agent_library disk yaml "/r" =
  Ok (mkLibrary "lib" "two endpoints" [mkPrompt "a" "A" "first" "guides" "# A"]) /\
  exists text agent_index,
    read_to_string disk (join "/r" ".agent_library/agent_index.yml") = Ok text /\
    yaml text = Ok agent_index /\
    (length [mkPrompt "a" "A" "first" "guides" "# A"] <= length (mcp_endpoints agent_index))%nat.
Proof.
  split; [reflexivity|].
  destruct (parse_agent_library_prompts disk yaml "/r"
              (mkLibrary "lib" "two endpoints" [mkPrompt "a" "A" "first" "guides" "# A"])
              eq_refl) as (text & index & Hread & Hyaml & _ & _ & _ & Hlen & _).
  exists text, index. split; [exact Hread|]. split; [exact Hyaml|exact Hlen].
Defined.

(** X14. Parsing keeps ids distinct: when the endpoints of the index have
    pairwise distinct ids, so have the prompts of the parsed library. *)
Theorem parse_agent_library_ids_distinct
  (fs : Fs) (from_str : string -> Result AgentIndex string)
  (repo_path text : string) (agent_index : AgentIndex) (library : AgentLibrary) :
  read_to_string fs (join repo_path ".agent_library/agent_index.yml") = Ok text ->
  from_str text = Ok agent_index ->
  NoDup (endpoint_id <$> mcp_endpoints agent_index) ->
  parse_agent_library fs from_str repo_path = Ok library ->
  NoDup (id <$> prompts library).
Proof.
  intros Hread Hyaml Hnd Hok.
  apply parse_agent_library_ok in Hok as (text' & index' & _ & Hread' & Hyaml' & ->).
  rewrite Hread in Hread'. injection Hread' as <-.
  rewrite Hyaml in Hyaml'. injection Hyaml' as <-.
  cbn [prompts]. rewrite <- list_fmap_compose.
  induction (mcp_endpoints agent_index) as [|e l IH]; [apply NoDup_nil_2|].
  rewrite fmap_cons in Hnd. apply NoDup_cons in Hnd as [He Hl].
  rewrite filter_cons. case_decide; [|by apply IH].
  rewrite fmap_cons. apply NoDup_cons. split; [|by apply IH].
  intros Hin. apply He. apply list_elem_of_fmap in Hin as (x & Hid & Hx).
  apply list_elem_of_filter in Hx as [_ Hx].
  apply list_elem_of_fmap. by exists x.
Qed.

Lemma parse_agent_library_ids_distinct_witness :
  NoDup (id <$> [mkPrompt "a" "A" "first" "guides" "# A"]).
Proof.
  apply (parse_agent_library_ids_distinct disk yaml "/r" "index" index_ab
           (mkLibrary "lib" "two endpoints" [mkPrompt "a" "A" "first" "guides" "# A"])).
  - reflexivity.
  - reflexivity.
  - apply (bool_decide_unpack _). vm_compute. exact I.
  - reflexivity.
Defined.

(** X15. For a repository whose index can be read and parsed,
    [get_repository_info] answers with the name and the description of the
    index, with a [prompt_count] that is the number of endpoints the index
    declares, whether or not their prompt files exist, and with the
    categories of the endpoints, each listed once and no other. So for one
    repository [prompt_count] is at least the number of prompts
    [parse_agent_library] returns, and equal to it exactly when every
    prompt file exists; name, description and categories agree with the
    parsed library. *)
Theorem get_repository_info_counts_endpoints
  (fs : Fs) (from_str : string -> Result AgentIndex string)
  (path text : string) (agent_index : AgentIndex) :
  read_to_string fs (join path ".agent_library/agent_index.yml") = Ok text ->
  from_str text = Ok agent_index ->
  exists info,
    get_repository_info fs from_str path = Ok info /\
    info_name info = index_name agent_index /\
    info_description info = index_description agent_index /\
    prompt_count info = length (mcp_endpoints agent_index) /\
    NoDup (categories info) /\
    (forall c, c ∈ categories info <->
               exists e, e ∈ mcp_endpoints agent_index /\ endpoint_category e = c) /\
    (forall library,
        parse_agent_library fs from_str path = Ok library ->
        name library = info_name info /\
        library_description library = info_description info /\
        (length (prompts library) <= prompt_count info)%nat /\
        (length (prompts library) = prompt_count info <->
         forall e, e ∈ mcp_endpoints agent_index -> present fs path e) /\
        (forall p, p ∈ prompts library -> category p ∈ categories info)).
Proof.
  intros Hread Hyaml.
  unfold get_repository_info. rewrite Hread, Hyaml. eexists. split; [reflexivity|].
  cbn [info_name info_description prompt_count categories].
  split; [done|]. split; [done|]. split; [done|]. split; [apply NoDup_elements|].
  split.
  - intros c. rewrite elem_of_elements, elem_of_list_to_set, list_elem_of_fmap.
    split; intros (e & He & He'); exists e; done.
  - intros library Hok.
    apply parse_agent_library_ok in Hok as (text' & index' & _ & Hread' & Hyaml' & ->).
    rewrite Hread in Hread'. injection Hread' as <-.
    rewrite Hyaml in Hyaml'. injection Hyaml' as <-.
    cbn [name library_description prompts].
    split; [done|]. split; [done|]. rewrite length_fmap.
    split; [apply length_filter|]. split.
    + split.
      * intros Hlen e He.
        assert (filter (present fs path) (mcp_endpoints agent_index)
                = mcp_endpoints agent_index) as Hall.
        { clear He. induction (mcp_endpoints agent_index) as [|x l IH]; [done|].
          rewrite filter_cons in *. case_decide.
          - f_equal. apply IH. simpl in Hlen. lia.
          - pose proof (length_filter (present fs path) l). simpl in Hlen. lia. }
        rewrite <- Hall in He. by apply list_elem_of_filter in He as [He _].
      * intros Hall. f_equal.
        induction (mcp_endpoints agent_index) as [|x l IH]; [done|].
        rewrite filter_cons, decide_True by (apply Hall, list_elem_of_here).
        f_equal. apply IH. intros e He. apply Hall. by apply list_elem_of_further.
    + intros p Hp. apply list_elem_of_fmap in Hp as (e & -> & He).
      apply list_elem_of_filter in He as [_ He].
      apply elem_of_elements, elem_of_list_to_set, list_elem_of_fmap. by exists e.
Qed.

Lemma get_repository_info_counts_endpoints_witness :
  exists info,
    get_repository_info disk yaml "/r" = Ok info /\
    prompt_count info = 2%nat /\
    (forall c, c ∈ categories info <-> c = "guides") /\
    parse_agent_library disk yaml "/r" =
    Ok (mkLibrary "lib" "two endpoints" [mkPrompt "a" "A" "first" "guides" "# A"]).
Proof.
  destruct (get_repository_info_counts_endpoints disk yaml "/r" "index" index_ab
              eq_refl eq_refl) as (info & Hinfo & _ & _ & Hcount & _ & Hcat & _).
  exists info. split; [exact Hinfo|]. split; [exact Hcount|]. split; [|reflexivity].
  intros c. rewrite Hcat. split.
  - intros (e & He & <-). simpl in He.
    apply elem_of_cons in He as [->|He]; [done|].
    apply elem_of_cons in He as [->|He]; [done|].
    by apply elem_of_nil in He.
  - intros ->. exists (mkEndpoint "a" "A" "first" "a.md" "guides").
    split; [apply list_elem_of_here|done].
Defined.

End LibraryParserFacts.

(** ** More on the configuration store *)

Module ConfigApiFacts.
Import Config ConfigApi.

(** X16. [removeRepository] changes the store only when the backend answers
    that it removed the repository: then the call answers true, and the
    store holds the entries whose id is not the given one, all of them, each
    as often as before and in the order they had, so distinct ids stay
    distinct; the other fields of the configuration are kept. When the
    backend answers false the call answers false, when it fails the error
    is thrown again, and the store is left as it was. The backend is left
    as the command has left it. With the confirmation dialog declined the
    backend is not even asked; with the dialog accepted the call is
    [removeRepository]. *)
Theorem removeRepository_removes_only_that_id
  (B : Type) (remove_repository_config : string -> B -> Result bool string * B)
  (repositoryId repositoryName : string) (config : AppConfig) (b : B) :
  let out := removeRepository B remove_repository_config repositoryId (config, b) in
  match remove_repository_config repositoryId b with
  | (Ok true, b') =>
      out.1 = Ok true /\
      out.2.2 = b' /\
      repositories out.2.1 =
      filter (fun r => id r ≠ repositoryId) (repositories config) /\
      sublist (repositories out.2.1) (repositories config) /\
      (forall r, r ∈ repositories out.2.1 <->
                 r ∈ repositories config /\ id r ≠ repositoryId) /\
      (NoDup (id <$> repositories config) -> NoDup (id <$> repositories out.2.1)) /\
      last_opened_repository out.2.1 = last_opened_repository config /\
      theme out.2.1 = theme config /\
      auto_start_servers out.2.1 = auto_start_servers config
  | (Ok false, b') => out = (Ok false, (config, b'))
  | (Err e, b') => out = (Err e, (config, b'))
  end /\
  removeRepositoryWithConfirmation B remove_repository_config
    repositoryId repositoryName false (config, b) = (Ok false, (config, b)) /\
  removeRepositoryWithConfirmation B remove_repository_config
    repositoryId repositoryName true (config, b) = out.
Proof.
  unfold removeRepositoryWithConfirmation, removeRepository. simpl.
  split; [|done].
  destruct (remove_repository_config repositoryId b) as [[[]|e] b']; simpl; try done.
  split; [done|]. split; [done|]. split; [done|].
  split; [apply sublist_filter|]. split; [|split; [|done]].
  - intros r. by rewrite list_elem_of_filter, (and_comm (r ∈ _)).
  - apply ConfigFacts.removeRepository_update_NoDup.
Qed.

(** A backend that removes whatever it is asked to, counting the calls. *)
Definition removing (repositoryId : string) (calls : nat) : Result bool string * nat :=
  (Ok true, S calls).

Lemma removeRepository_removes_only_that_id_witness :
  let config :=
    mkConfig [ConfigFacts.repo_b; ConfigFacts.repo_a_old; ConfigFacts.repo_b;
              ConfigFacts.repo_a_new] None "light" true in
  (removeRepository nat removing "repo-a" (config, 0%nat)).1 = Ok true /\
  repositories (removeRepository nat removing "repo-a" (config, 0%nat)).2.1
  = [ConfigFacts.repo_b; ConfigFacts.repo_b].
Proof.
  intros config.
  pose proof (removeRepository_removes_only_that_id nat removing "repo-a" "A" config 0%nat)
    as [(Hok & _ & Hrest & _) _].
  split; [exact Hok|]. rewrite Hrest. reflexivity.
Defined.

Lemma lookup_map {A C} (f : A -> C) (l : list A) (i : nat) :
  map f l !! i = f <$> l !! i.
Proof.
  revert i. induction l as [|x l IH]; intros [|i]; simpl; done.
Qed.

Lemma ids_update (repositoryId : string) (port : Z) (status : McpStatus) (now : string)
  (l : list RepositoryConfig) :
  id <$> map (fun r =>
                if decide (id r = repositoryId)
                then mkRepo (id r) (name r) (path r) (is_active r) now
                            (Some (mkMcp port status))
                else r) l
  = id <$> l.
Proof.
  induction l as [|r l IH]; [done|]. simpl. f_equal; [by case_decide|exact IH].
Qed.

(** X17. [updateMcpServerStatus] never adds, removes or reorders
    repositories: the list of ids is the same after a successful call. Each
    entry with the given id gets the port, the status and the new timestamp
    and keeps its name, path and activity; entries with other ids are not
    touched, so a call for an unknown id changes nothing. When the backend
    command fails the store is left as it was. *)
Theorem updateMcpServerStatus_keeps_ids
  (B : Type) (update_repository_mcp_status : string -> Z -> McpStatus -> B -> Result unit string * B)
  (repositoryId : string) (port : Z) (status : McpStatus) (now : string)
  (config : AppConfig) (b : B) :
  let out := updateMcpServerStatus B update_repository_mcp_status
               repositoryId port status now (config, b) in
  match out.1 with
  | Ok _ =>
      id <$> repositories out.2.1 = id <$> repositories config /\
      (forall i r, repositories config !! i = Some r ->
                   repositories out.2.1 !! i =
                   Some (if decide (id r = repositoryId)
                         then mkRepo (id r) (name r) (path r) (is_active r) now
                                     (Some (mkMcp port status))
                         else r)) /\
      ((forall r, r ∈ repositories config -> id r ≠ repositoryId) ->
       out.2.1 = config)
  | Err _ => out.2.1 = config
  end.
Proof.
  unfold updateMcpServerStatus. simpl.
  destruct (update_repository_mcp_status repositoryId port status b) as [[[]|e] b'];
    simpl; [|done].
  split; [apply ids_update|]. split.
  - intros i r Hi. unfold updateMcpServerStatus_update, with_repositories.
    cbn [repositories]. by rewrite lookup_map, Hi.
  - intros Hnone. unfold updateMcpServerStatus_update.
    destruct config as [l last th auto]. unfold with_repositories. simpl in *.
    f_equal. induction l as [|r l IH]; [done|]. simpl.
    rewrite decide_False by (apply Hnone, list_elem_of_here).
    f_equal. apply IH. intros x Hx. apply Hnone. by apply list_elem_of_further.
Qed.

Lemma filter_other_id_all (repositoryId : string) (l : list RepositoryConfig) :
  (forall r, r ∈ l -> id r ≠ repositoryId) ->
  filter (fun r => id r ≠ repositoryId) l = l.
Proof.
  induction l as [|r l IH]; intros Hall; [done|].
  rewrite filter_cons, decide_True by (apply Hall, list_elem_of_here).
  f_equal. apply IH. intros x Hx. apply Hall. by apply list_elem_of_further.
Qed.

(** X18. Adding and then removing is a round trip: when no entry of the
    configuration has the id of the new repository, the update of
    [addRepository] followed by the update of [removeRepository] for that id
    gives back the configuration. *)
Theorem add_then_remove
  (repository : RepositoryConfig) (config : AppConfig) :
  (forall r, r ∈ repositories config -> id r ≠ id repository) ->
  removeRepository_update (id repository) (addRepository_update repository config)
  = config.
Proof.
  intros Hnew. unfold removeRepository_update.
  rewrite (ConfigFacts.addRepository_update_append _ _ Hnew).
  unfold addRepository_update, with_repositories. simpl.
  rewrite filter_app, (filter_other_id_all _ _ Hnew).
  rewrite filter_cons, decide_False by (by intros H).
  rewrite filter_nil, app_nil_r. by destruct config.
Qed.

Definition repo_a : RepositoryConfig :=
  mkRepo "repo-a" "A" "/home/u/repo-a" true "2024-05-01T10:00:00.000Z" None.

Definition repo_b : RepositoryConfig :=
  mkRepo "repo-b" "B" "/home/u/repo-b" true "2024-05-01T10:00:00.000Z" None.

Definition config_a : AppConfig := mkConfig [repo_a] (Some "repo-a") "dark" true.

Lemma add_then_remove_witness :
  removeRepository_update "repo-b" (addRepository_update repo_b config_a) = config_a.
Proof.
  apply (add_then_remove repo_b config_a).
  intros r Hr. apply list_elem_of_singleton in Hr. by subst r.
Defined.

(** X19. Adding the same repository twice is the same as adding it once:
    the second call replaces the entry the first one wrote, so repeated
    calls neither duplicate nor move it. *)
Theorem addRepository_update_idempotent
  (repository : RepositoryConfig) (config : AppConfig) :
  addRepository_update repository (addRepository_update repository config)
  = addRepository_update repository config.
Proof.
  set (same := fun r => bool_decide (id r = id repository)).
  assert (forall l i, Js.findIndex same l = Some i ->
            Js.findIndex same (<[i := repository]> l) = Some i) as Hrep.
  { induction l as [|x l IH]; intros i; simpl; [done|].
    destruct (same x) eqn:Hx.
    - intros [= <-]. simpl. unfold same at 1. by rewrite bool_decide_eq_true_2.
    - destruct (Js.findIndex same l) as [k|] eqn:Hk; simpl; [|done].
      intros [= <-]. simpl. rewrite Hx, (IH k eq_refl). done. }
  assert (forall l, Js.findIndex same l = None ->
            Js.findIndex same (l ++ [repository]) = Some (length l)) as Happ.
  { induction l as [|x l IH]; simpl.
    - intros _. unfold same. by rewrite bool_decide_eq_true_2.
    - destruct (same x); [done|].
      destruct (Js.findIndex same l) as [k|]; simpl; [done|].
      intros _. by rewrite IH. }
  unfold addRepository_update at 1. fold same.
  unfold addRepository_update. fold same.
  destruct (Js.findIndex same (repositories config)) as [i|] eqn:Hfind; simpl.
  - rewrite (Hrep _ _ Hfind). unfold with_repositories. simpl.
    by rewrite list_insert_insert_eq.
  - rewrite (Happ _ Hfind). unfold with_repositories. simpl. f_equal.
    rewrite insert_app_r_alt by done. rewrite Nat.sub_diag. done.
Qed.

End ConfigApiFacts.

(** ** More on the file watcher *)

Module WatcherFacts.
Import Config FileWatcher FileWatcherFacts Watching.

Lemma toLowerCase_app (a b : string) :
  Js.toLowerCase (a +:+ b) = Js.toLowerCase a +:+ Js.toLowerCase b.
Proof.
  induction a as [|c a IH]; [done|].
  rewrite JsFacts.append_cons. simpl. by rewrite IH, JsFacts.append_cons.
Qed.

(** X20. [shouldAutoReload] is a case-insensitive substring test on the
    whole path: it holds exactly when the path in lower case contains
    agent_index.yml, agent_index.yaml or .md somewhere, in a directory name
    as well as in the file name; so any path with a part that lower-cases to
    one of the three patterns matches. *)
Theorem shouldAutoReload_substring (event : FileChangeEvent) :
  (shouldAutoReload event = true <->
   exists pattern before after,
     pattern ∈ ["agent_index.yml"; "agent_index.yaml"; ".md"] /\
     Js.toLowerCase (file_path event) = before +:+ pattern +:+ after) /\
  (forall pattern before part after,
      pattern ∈ ["agent_index.yml"; "agent_index.yaml"; ".md"] ->
      Js.toLowerCase part = pattern ->
      file_path event = before +:+ part +:+ after ->
      shouldAutoReload event = true).
Proof.
  assert (shouldAutoReload event = true <->
          exists pattern before after,
            pattern ∈ ["agent_index.yml"; "agent_index.yaml"; ".md"] /\
            Js.toLowerCase (file_path event) = before +:+ pattern +:+ after) as Hiff.
  { rewrite shouldAutoReload_patterns, !orb_true_iff, !JsFacts.includes_substring. split.
    - intros [[(b & a & H)|(b & a & H)]|(b & a & H)].
      + exists "agent_index.yml", b, a. split; [|done]. apply list_elem_of_here.
      + exists "agent_index.yaml", b, a. split; [|done].
        apply list_elem_of_further, list_elem_of_here.
      + exists ".md", b, a. split; [|done].
        do 2 apply list_elem_of_further. apply list_elem_of_here.
    - intros (pattern & b & a & Hin & H).
      apply elem_of_cons in Hin as [->|Hin]; [left; left; by exists b, a|].
      apply elem_of_cons in Hin as [->|Hin]; [left; right; by exists b, a|].
      apply list_elem_of_singleton in Hin as ->. right. by exists b, a. }
  split; [exact Hiff|].
  intros pattern before part after Hin Hpart Hpath. apply Hiff.
  exists pattern, (Js.toLowerCase before), (Js.toLowerCase after).
  split; [done|]. by rewrite Hpath, !toLowerCase_app, Hpart.
Qed.

Lemma split_head_prefix (separator s : string) :
  exists rest,
    s = Js.split_head separator s +:+ rest /\
    (Js.includes separator s = false -> rest = "") /\
    (Js.includes separator s = true -> String.prefix separator rest = true).
Proof.
  induction s as [|c s IH]; cbn [Js.split_head Js.includes].
  - destruct (String.prefix separator "") eqn:Hp.
    + exists "". by repeat split.
    + exists "". by repeat split.
  - destruct (String.prefix separator (String c s)) eqn:Hp; simpl.
    + exists (String c s). by repeat split.
    + destruct IH as (rest & Hs & Hno & Hyes). exists rest.
      rewrite JsFacts.append_cons, <- Hs. by repeat split.
Qed.

(** The part cut by [split_head] ends where the separator occurs first:
    wherever the separator occurs in the string, the cut part is a prefix of
    what precedes that occurrence. *)
Lemma split_head_first (separator s a b : string) :
  s = a +:+ separator +:+ b ->
  exists c, a = Js.split_head separator s +:+ c.
Proof.
  revert a. induction s as [|x s IH]; intros a Hs.
  - cbn [Js.split_head]. destruct (String.prefix separator ""); by exists a.
  - cbn [Js.split_head]. destruct (String.prefix separator (String x s)) eqn:Hp.
    + by exists a.
    + destruct a as [|y a].
      * rewrite JsFacts.append_empty in Hs.
        assert (String.prefix separator (String x s) = true) as Hyes
          by (apply JsFacts.prefix_app; by exists b).
        congruence.
      * rewrite JsFacts.append_cons in Hs. injection Hs as <- Hs.
        destruct (IH a Hs) as (c & Hc). exists c.
        by rewrite JsFacts.append_cons, <- Hc.
Qed.

(** X21. The repository path a reload is sent with is cut out of the path
    of the event: it is the part before the first "/.agent_library". The
    path of the event is that repository path followed by "/.agent_library"
    and the rest, and wherever "/.agent_library" occurs in the path of the
    event, the repository path is a prefix of what precedes the occurrence.
    When the path of the event has no "/.agent_library" at all, the whole
    path of the file is sent as the repository path. *)
Theorem reload_path_is_cut_from_event
  (B : Type) (payload : FileChangeEvent) (app : App B) :
  autoReloadEnabled (stores app) = true ->
  shouldAutoReload payload = true ->
  Js.split_head "/.agent_library" (file_path payload) ≠ "" ->
  let repositoryPath := Js.split_head "/.agent_library" (file_path payload) in
  reloads (on_file_change payload app) =
  reloads app ++ [(repository_id payload, repositoryPath)] /\
  (exists rest,
      file_path payload = repositoryPath +:+ rest /\
      (Js.includes "/.agent_library" (file_path payload) = true ->
       exists tail, rest = "/.agent_library" +:+ tail) /\
      (Js.includes "/.agent_library" (file_path payload) = false -> rest = "")) /\
  (forall a b,
      file_path payload = a +:+ "/.agent_library" +:+ b ->
      exists c, a = repositoryPath +:+ c) /\
  (Js.includes "/.agent_library" (file_path payload) = false ->
   repositoryPath = file_path payload).
Proof.
  intros Hon Hfire Hpath repositoryPath. subst repositoryPath.
  destruct (on_file_change_fire payload app Hon Hfire) as (_ & Hre & _).
  destruct (split_head_prefix "/.agent_library" (file_path payload))
    as (rest & Hsplit & Hno & Hyes).
  split; [|split; [|split]].
  - rewrite Hre. unfold command_of, derived_path. by rewrite decide_False.
  - exists rest. split; [done|]. split; [|done].
    intros Hin. by apply JsFacts.prefix_app, Hyes.
  - intros a b Hab. by apply (split_head_first _ _ a b).
  - intros Hout. rewrite (Hno Hout) in Hsplit.
    rewrite Hsplit at 2. clear.
    induction (Js.split_head _ _) as [|c s IH]; [done|].
    by rewrite JsFacts.append_cons, <- IH.
Qed.

(** A prompt file below a directory that is itself named [.agent_library]
    inside the library. *)
Definition nested_saved : FileChangeEvent :=
  mkEvent "repo-a" "/home/u/repo-a/.agent_library/old/.agent_library/rust.md" Modified
          "2024-05-01T10:00:00.000Z".

Lemma reload_path_is_cut_from_event_witness :
  reloads (on_file_change nested_saved (app_initial 0%nat)) =
  [("repo-a", "/home/u/repo-a")] /\
  reloads (on_file_change index_saved (app_initial 0%nat)) =
  [("repo-a", "/home/u/repo-a")].
Proof.
  split.
  - destruct (reload_path_is_cut_from_event nat nested_saved (app_initial 0%nat)
                eq_refl eq_refl) as (Hre & _); [by vm_compute|exact Hre].
  - destruct (reload_path_is_cut_from_event nat index_saved (app_initial 0%nat)
                eq_refl eq_refl) as (Hre & _); [by vm_compute|exact Hre].
Defined.

Lemma split_pop_suffix (s : string) :
  exists directory,
    s = directory +:+ Js.split_pop s /\
    Js.includes "/" (Js.split_pop s) = false /\
    (directory = "" \/ exists d, directory = d +:+ "/").
Proof.
  induction s as [|c s IH]; [exists ""; split; [done|split; [done|by left]]|].
  cbn [Js.split_pop]. destruct (Js.includes "/" s) eqn:Hslash.
  - destruct IH as (dir & Hs & Hno & [->|(d & ->)]).
    + rewrite JsFacts.append_empty in Hs. rewrite <- Hs in Hno. congruence.
    + exists (String c d +:+ "/"). split; [|split; [done|right; by exists (String c d)]].
      by rewrite !JsFacts.append_cons, <- Hs.
  - destruct (decide (c = "/"%char)) as [->|Hne].
    + exists "/". split; [done|]. split; [done|]. right. by exists "".
    + exists "". split; [done|]. split; [|by left].
      cbn [Js.includes]. rewrite Hslash, orb_false_r.
      destruct (String.prefix "/" (String c s)) eqn:Hp; [|done].
      apply JsFacts.prefix_app in Hp as (rest & Hrest).
      rewrite JsFacts.append_cons in Hrest. congruence.
Qed.

(** X22. After the delivery of a matching event the page shows an
    information notification that names the changed file by the last
    segment of its path, which holds no slash, followed by the kind of
    change; for a path that ends in a slash the whole path is shown. *)
Theorem change_notification_names_file
  (B : Type) (payload : FileChangeEvent) (app : App B) :
  shouldAutoReload payload = true ->
  exists fileName directory,
    notification (stores (on_file_change payload app)) =
    Some (mkNotification info
            (fileName +:+ " が" +:+ changeTypeText (change_type payload) +:+ "されました")) /\
    file_path payload = directory +:+ Js.split_pop (file_path payload) /\
    Js.includes "/" (Js.split_pop (file_path payload)) = false /\
    fileName = (if decide (Js.split_pop (file_path payload) = "")
                then file_path payload
                else Js.split_pop (file_path payload)).
Proof.
  intros Hfire.
  destruct (split_pop_suffix (file_path payload)) as (dir & Hs & Hno & _).
  exists (Js.or_else (Js.split_pop (file_path payload)) (file_path payload)), dir.
  split; [|done].
  unfold on_file_change, on_stores. cbn [stores].
  unfold showChangeNotification. by rewrite Hfire.
Qed.

Lemma change_notification_names_file_witness :
  notification (stores (on_file_change index_saved (app_initial 0%nat))) =
  Some (mkNotification info "agent_index.yml が変更されました").
Proof.
  destruct (change_notification_names_file nat index_saved (app_initial 0%nat) eq_refl)
    as (fileName & dir & Hn & _ & _ & Hname).
  rewrite Hn, Hname. reflexivity.
Defined.

Section Page.

Context {B : Type}.
Variable reload_agent_library : string -> string -> B -> Result string string * B.
Variable getCurrentConfig : AppConfig -> B -> Result AppConfig string * (AppConfig * B).

Local Abbreviation resume := (resume reload_agent_library getCurrentConfig).
Local Abbreviation run := (run reload_agent_library getCurrentConfig).

Definition subscribers (app : App B) : list FileChangeEvent :=
  autoReload_subscribers (stores app).

(** Running the subscribed callbacks with the value [true]. *)
Lemma callbacks_fire (payloads : list FileChangeEvent) (app : App B) :
  let after := fold_left (fun a payload => auto_reload_callback payload true a)
                         payloads app in
  stores after = stores app /\
  backend after = backend app /\
  in_flight after =
    in_flight app ++ (reload_of <$> filter (fun e => shouldAutoReload e) payloads) /\
  reloads after =
    reloads app ++ omap command_of (filter (fun e => shouldAutoReload e) payloads).
Proof.
  revert app. induction payloads as [|e payloads IH]; intros app.
  - simpl. by rewrite !app_nil_r.
  - cbn [fold_left]. destruct (IH (auto_reload_callback e true app)) as (Hs & Hb & Hf & Hr).
    cbn zeta. rewrite Hs, Hb, Hf, Hr. rewrite filter_cons.
    destruct (shouldAutoReload e) eqn:Hfire.
    + rewrite decide_True by done. rewrite (auto_reload_callback_fire e app Hfire).
      cbn [stores backend in_flight]. unfold reloads. cbn [sent].
      rewrite map_app, fmap_cons, <- !app_assoc. cbn [omap list_omap].
      repeat split; try done. f_equal. by destruct (command_of e) as [[i p]|].
    + rewrite decide_False by (by intros []).
      by rewrite (auto_reload_callback_skip e true app).
Qed.

Lemma callbacks_idle (payloads : list FileChangeEvent) (app : App B) :
  fold_left (fun a payload => auto_reload_callback payload false a) payloads app = app.
Proof. induction payloads as [|e payloads IH]; [done|]. simpl. exact IH. Qed.

Lemma subscribers_on_file_change (payload : FileChangeEvent) (app : App B) :
  subscribers (on_file_change payload app) = subscribers app ++ [payload].
Proof.
  unfold subscribers, on_file_change, on_stores. cbn [stores].
  unfold showChangeNotification, subscribe_auto_reload.
  destruct (shouldAutoReload payload); cbn [set_notification autoReload_subscribers];
    by rewrite stores_auto_reload_callback.
Qed.

Lemma subscribers_deliveries (events : list FileChangeEvent) (app : App B) :
  subscribers (run (Deliver <$> events) app) = subscribers app ++ events.
Proof.
  revert app. induction events as [|e events IH]; intros app.
  - simpl. by rewrite app_nil_r.
  - change (run (Deliver <$> e :: events) app)
      with (run (Deliver <$> events) (on_file_change e app)).
    by rewrite IH, subscribers_on_file_change, <- app_assoc.
Qed.

End Page.

(** X23. The callbacks the listener subscribes to [autoReloadEnabled] are
    never unsubscribed: each delivered event leaves one behind. Switching
    auto-reload off starts nothing; switching it on again runs all of them,
    so every matching event delivered so far starts a reload once more, in
    the order of delivery. *)
Theorem toggle_reloads_past_events
  (B : Type)
  (reload_agent_library : string -> string -> B -> Result string string * B)
  (getCurrentConfig : AppConfig -> B -> Result AppConfig string * (AppConfig * B))
  (app : App B) :
  (forall events,
      subscribers (run reload_agent_library getCurrentConfig (Deliver <$> events) app)
      = subscribers app ++ events) /\
  (autoReloadEnabled (stores app) = true ->
   autoReloadEnabled (stores (toggleAutoReload app)) = false /\
   in_flight (toggleAutoReload app) = in_flight app /\
   sent (toggleAutoReload app) = sent app) /\
  (autoReloadEnabled (stores app) = false ->
   autoReloadEnabled (stores (toggleAutoReload app)) = true /\
   in_flight (toggleAutoReload app) =
     in_flight app ++ (reload_of <$> filter (fun e => shouldAutoReload e) (subscribers app)) /\
   reloads (toggleAutoReload app) =
     reloads app ++ omap command_of (filter (fun e => shouldAutoReload e) (subscribers app))).
Proof.
  split; [intros events; apply subscribers_deliveries|]. split.
  - intros Hon. unfold toggleAutoReload. rewrite Hon. cbn [negb].
    by rewrite callbacks_idle.
  - intros Hoff. unfold toggleAutoReload. rewrite Hoff. cbn [negb].
    match goal with
    | |- context [fold_left _ ?l ?a] => destruct (callbacks_fire l a) as (Hs & _ & Hf & Hr)
    end.
    cbn zeta in *. rewrite Hs, Hf, Hr. done.
Qed.

End WatcherFacts.

(** ** Watching repositories *)

Module WatchingFacts.
Import Config FileWatcher Watching.

Lemma watched_true (repositoryId : string) (r : WatchedRepository) :
  bool_decide (watched_id r = repositoryId) = true <-> watched_id r = repositoryId.
Proof. apply bool_decide_eq_true. Qed.

Lemma watched_false (repositoryId : string) (r : WatchedRepository) :
  bool_decide (watched_id r = repositoryId) = false <-> watched_id r ≠ repositoryId.
Proof. apply bool_decide_eq_false. Qed.

Lemma start_update_entry (repositoryId : string) (repos : list WatchedRepository) :
  mkWatched repositoryId true None ∈ start_update repositoryId repos.
Proof.
  unfold start_update. destruct (Js.findIndex _ _) as [i|] eqn:Hfind.
  - apply ConfigFacts.findIndex_Some in Hfind as (x & Hx & _).
    apply list_elem_of_lookup. exists i.
    apply list_lookup_insert_eq. by apply lookup_lt_Some in Hx.
  - apply elem_of_app. right. apply list_elem_of_here.
Qed.

Lemma start_update_others (repositoryId : string) (repos : list WatchedRepository)
  (j : nat) (r : WatchedRepository) :
  repos !! j = Some r -> watched_id r ≠ repositoryId ->
  start_update repositoryId repos !! j = Some r.
Proof.
  intros Hj Hne. unfold start_update.
  destruct (Js.findIndex _ _) as [i|] eqn:Hfind.
  - apply ConfigFacts.findIndex_Some in Hfind as (x & Hx & Hfx & _).
    apply watched_true in Hfx.
    rewrite list_lookup_insert_ne; [done|]. intros ->. congruence.
  - rewrite lookup_app_l; [done|]. by apply lookup_lt_Some in Hj.
Qed.

Lemma start_update_ids (repositoryId : string) (repos : list WatchedRepository) :
  watched_id <$> start_update repositoryId repos =
  if bool_decide (repositoryId ∈ watched_id <$> repos)
  then watched_id <$> repos
  else (watched_id <$> repos) ++ [repositoryId].
Proof.
  unfold start_update. destruct (Js.findIndex _ _) as [i|] eqn:Hfind.
  - apply ConfigFacts.findIndex_Some in Hfind as (x & Hx & Hfx & _).
    apply watched_true in Hfx.
    rewrite bool_decide_eq_true_2.
    + rewrite list_fmap_insert. simpl. rewrite <- Hfx.
      apply list_insert_id. by rewrite list_lookup_fmap, Hx.
    + apply list_elem_of_fmap. exists x. split; [done|].
      apply list_elem_of_lookup. by exists i.
  - rewrite bool_decide_eq_false_2; [by rewrite fmap_app|].
    intros Hin. apply list_elem_of_fmap in Hin as (x & Hid & Hx).
    pose proof (proj1 (ConfigFacts.findIndex_None _ _) Hfind x Hx) as Hfalse.
    apply watched_false in Hfalse. congruence.
Qed.

(** X24. After [startWatchingRepository] has succeeded the repository is in
    the list of watched repositories with [is_watching] set and no last
    change: an entry it had before is replaced, so a last change recorded
    earlier is gone; otherwise the entry is added at the end. Entries of
    other repositories stay where they are, and ids that were distinct stay
    distinct. When the backend command fails the list is left as it was,
    an error notification is set and the error is passed on. *)
Theorem startWatchingRepository_watches
  (B : Type) (start_watching_repository : string -> string -> B -> Result unit string * B)
  (repositoryId repositoryPath : string) (app : App B) :
  let out := startWatchingRepository B start_watching_repository
               repositoryId repositoryPath app in
  let before := watchedRepositories (stores app) in
  let after := watchedRepositories (stores out.2) in
  match out.1 with
  | Ok _ =>
      mkWatched repositoryId true None ∈ after /\
      (forall j r, before !! j = Some r -> watched_id r ≠ repositoryId ->
                   after !! j = Some r) /\
      (watched_id <$> after =
       if bool_decide (repositoryId ∈ watched_id <$> before)
       then watched_id <$> before
       else (watched_id <$> before) ++ [repositoryId]) /\
      (NoDup (watched_id <$> before) -> NoDup (watched_id <$> after)) /\
      notification (stores out.2) = Some (watching_started repositoryId)
  | Err e =>
      after = before /\
      notification (stores out.2) = Some (watching_not_started repositoryId e)
  end.
Proof.
  unfold startWatchingRepository. cbn zeta.
  destruct (start_watching_repository repositoryId repositoryPath (backend app))
    as [[[]|e] b]; cbn [fst snd stores set_notification set_watched watchedRepositories
                        notification]; [|done].
  split; [apply start_update_entry|]. split; [apply start_update_others|].
  split; [apply start_update_ids|]. split; [|done].
  intros Hnd. rewrite start_update_ids. case_bool_decide as Hin; [done|].
  apply NoDup_app. split; [done|]. split; [|apply NoDup_singleton].
  intros x Hx Hx'. apply list_elem_of_singleton in Hx'. by subst x.
Qed.

Lemma stop_update_lookup (repositoryId : string) (repos : list WatchedRepository)
  (i : nat) (r : WatchedRepository) :
  repos !! i = Some r ->
  stop_update repositoryId repos !! i =
  Some (if decide (watched_id r = repositoryId)
        then mkWatched (watched_id r) false (last_change r)
        else r).
Proof.
  intros Hi. unfold stop_update. by rewrite ConfigApiFacts.lookup_map, Hi.
Qed.

(** X25. [stopWatchingRepository] never removes an entry: after a
    successful call the list has the same ids in the same order, the
    entries of the repository have [is_watching] cleared and keep their last
    change, and the other entries are untouched. For a repository that is
    not in the list nothing changes, yet the notification that watching has
    stopped is shown. When the backend command fails the list is left as it
    was and the error is passed on. *)
Theorem stopWatchingRepository_keeps_entries
  (B : Type) (stop_watching_repository : string -> B -> Result unit string * B)
  (repositoryId : string) (app : App B) :
  let out := stopWatchingRepository B stop_watching_repository repositoryId app in
  let before := watchedRepositories (stores app) in
  let after := watchedRepositories (stores out.2) in
  match out.1 with
  | Ok _ =>
      watched_id <$> after = watched_id <$> before /\
      (forall i r, before !! i = Some r ->
                   after !! i =
                   Some (if decide (watched_id r = repositoryId)
                         then mkWatched (watched_id r) false (last_change r)
                         else r)) /\
      ((forall r, r ∈ before -> watched_id r ≠ repositoryId) -> after = before) /\
      notification (stores out.2) = Some (watching_stopped repositoryId)
  | Err e =>
      after = before /\
      notification (stores out.2) = Some (watching_not_stopped repositoryId e)
  end.
Proof.
  unfold stopWatchingRepository. cbn zeta.
  destruct (stop_watching_repository repositoryId (backend app))
    as [[[]|e] b]; cbn [fst snd stores set_notification set_watched watchedRepositories
                        notification]; [|done].
  split; [|split; [apply stop_update_lookup|split; [|done]]].
  - unfold stop_update.
    induction (watchedRepositories (stores app)) as [|r l IH]; [done|].
    simpl. f_equal; [by case_decide|exact IH].
  - intros Hnone. unfold stop_update.
    induction (watchedRepositories (stores app)) as [|r l IH]; [done|]. simpl.
    rewrite decide_False by (apply Hnone, list_elem_of_here).
    f_equal. apply IH. intros x Hx. apply Hnone. by apply list_elem_of_further.
Qed.

(** X26. The delivery of an event records it as the last change of every
    watched entry of its repository, whether or not that entry is still
    being watched; it adds and removes no entry, keeps every [is_watching]
    flag, and leaves the entries of other repositories alone. *)
Theorem on_file_change_last_change
  (B : Type) (payload : FileChangeEvent) (app : App B) :
  let before := watchedRepositories (stores app) in
  let after := watchedRepositories (stores (on_file_change payload app)) in
  length after = length before /\
  (forall i r, before !! i = Some r ->
               after !! i =
               Some (if decide (watched_id r = repository_id payload)
                     then mkWatched (watched_id r) (is_watching r) (Some payload)
                     else r)) /\
  watched_id <$> after = watched_id <$> before /\
  is_watching <$> after = is_watching <$> before.
Proof.
  cbn zeta.
  assert (watchedRepositories (stores (on_file_change payload app)) =
          map (fun repo =>
                 if decide (watched_id repo = repository_id payload)
                 then mkWatched (watched_id repo) (is_watching repo) (Some payload)
                 else repo)
              (watchedRepositories (stores app))) as ->.
  { unfold on_file_change, on_stores. cbn [stores].
    unfold showChangeNotification, subscribe_auto_reload.
    destruct (shouldAutoReload payload);
      cbn [set_notification watchedRepositories];
      by rewrite FileWatcherFacts.stores_auto_reload_callback. }
  split; [apply length_map|]. split.
  - intros i r Hi. by rewrite ConfigApiFacts.lookup_map, Hi.
  - split; induction (watchedRepositories (stores app)) as [|r l IH]; try done;
      simpl; (f_equal; [by case_decide|exact IH]).
Qed.

End WatchingFacts.

(** ** Statistics of the change history *)

Module ChangeStatsFacts.
Import FileWatcher ChangeStats.

#[global] Instance ChangeType_eq_dec : EqDecision ChangeType.
Proof. solve_decision. Defined.

Definition of_type (c : ChangeType) (events : list FileChangeEvent) : nat :=
  length (filter (fun e => change_type e = c) events).

Definition of_repository (repositoryId : string) (events : list FileChangeEvent) : nat :=
  length (filter (fun e => repository_id e = repositoryId) events).

Definition one_if (P : Prop) `{Decision P} : nat := if decide P then 1%nat else 0%nat.

Lemma count_event_fields (stats : Stats) (e : FileChangeEvent) :
  total (count_event stats e) = total stats /\
  created (count_event stats e) = (created stats + one_if (change_type e = Created))%nat /\
  modified (count_event stats e) = (modified stats + one_if (change_type e = Modified))%nat /\
  deleted (count_event stats e) = (deleted stats + one_if (change_type e = Deleted))%nat /\
  renamed (count_event stats e) = (renamed stats + one_if (change_type e = Renamed))%nat /\
  (forall i, byRepository (count_event stats e) !! i =
             if decide (repository_id e = i)
             then Some (S (default 0%nat (byRepository stats !! i)))
             else byRepository stats !! i).
Proof.
  unfold count_event, one_if.
  destruct (change_type e); cbn [total created modified deleted renamed byRepository];
    repeat (split; [repeat case_decide; try done; lia|]);
    intros i; (case_decide as Hi; [subst i; by rewrite lookup_insert_eq
                                  |by rewrite lookup_insert_ne]).
Qed.

Lemma length_filter_cons {A} (P : A -> Prop) `{forall x, Decision (P x)} (x : A) (l : list A) :
  length (filter P (x :: l)) = (one_if (P x) + length (filter P l))%nat.
Proof. rewrite filter_cons. unfold one_if. by case_decide. Qed.

Lemma count_events (events : list FileChangeEvent) (stats : Stats) :
  let after := fold_left count_event events stats in
  total after = total stats /\
  created after = (created stats + of_type Created events)%nat /\
  modified after = (modified stats + of_type Modified events)%nat /\
  deleted after = (deleted stats + of_type Deleted events)%nat /\
  renamed after = (renamed stats + of_type Renamed events)%nat /\
  (forall i, default 0%nat (byRepository after !! i) =
             (default 0%nat (byRepository stats !! i) + of_repository i events)%nat) /\
  (forall i, byRepository after !! i = None <->
             byRepository stats !! i = None /\ of_repository i events = 0%nat).
Proof.
  revert stats. induction events as [|e events IH]; intros stats.
  - simpl. unfold of_type, of_repository. simpl.
    repeat split; try lia; try done. by intros [? _].
  - cbn [fold_left].
    destruct (IH (count_event stats e)) as (Ht & Hc & Hm & Hd & Hr & Hby & Hnone).
    destruct (count_event_fields stats e) as (Ft & Fc & Fm & Fd & Fr & Fby).
    cbn zeta. unfold of_type, of_repository in *.
    rewrite !length_filter_cons.
    split; [lia|]. split; [lia|]. split; [lia|]. split; [lia|]. split; [lia|]. split.
    + intros i. rewrite Hby, Fby, length_filter_cons. unfold one_if. clear.
      case_decide; simpl; lia.
    + intros i. rewrite Hnone, Fby, length_filter_cons. unfold one_if. clear.
      case_decide; simpl; [|done].
      split; [by intros [? _]|]. intros [_ ?]. lia.
Qed.

Lemma types_partition (events : list FileChangeEvent) :
  (of_type Created events + of_type Modified events + of_type Deleted events
   + of_type Renamed events = length events)%nat.
Proof.
  unfold of_type. induction events as [|e events IH]; [done|].
  rewrite !length_filter_cons. unfold one_if.
  destruct (change_type e); repeat case_decide; simpl; try done; lia.
Qed.

(** X27. [getChangeEventStats] counts every event once by kind and once by
    repository: [total] is the number of events and equals the sum of the
    four kind counters; a repository has an entry in [byRepository] exactly
    when the history holds an event of it, and the entry is the number of
    those events. (For repository ids that are not names inherited by every
    object, such as "constructor".) *)
Theorem getChangeEventStats_counts (events : list FileChangeEvent) :
  (forall e, e ∈ events -> repository_id e ∉ inherited) ->
  let stats := getChangeEventStats events in
  total stats = length events /\
  (created stats + modified stats + deleted stats + renamed stats = total stats)%nat /\
  created stats = of_type Created events /\
  modified stats = of_type Modified events /\
  deleted stats = of_type Deleted events /\
  renamed stats = of_type Renamed events /\
  (forall repositoryId,
      byRepository stats !! repositoryId =
      if decide (of_repository repositoryId events = 0%nat) then None
      else Some (of_repository repositoryId events)).
Proof.
  intros _. cbn zeta. unfold getChangeEventStats.
  destruct (count_events events (mkStats (length events) 0 0 0 0 ∅))
    as (Ht & Hc & Hm & Hd & Hr & Hby & Hnone).
  cbn zeta in *. cbn [total created modified deleted renamed byRepository] in *.
  rewrite Ht, Hc, Hm, Hd, Hr. simpl.
  split; [done|]. split; [apply types_partition|]. do 4 (split; [done|]).
  intros i. specialize (Hby i). specialize (Hnone i).
  rewrite lookup_empty in Hby, Hnone. simpl in Hby.
  case_decide as Hz.
  - apply Hnone. by split.
  - destruct (byRepository _ !! i) as [n|] eqn:Hl.
    + simpl in Hby. by rewrite Hby.
    + destruct Hz. by apply Hnone.
Qed.

Lemma getChangeEventStats_counts_witness :
  total (getChangeEventStats [FileWatcherFacts.index_saved; FileWatcherFacts.readme_saved]) = 2%nat /\
  byRepository (getChangeEventStats [FileWatcherFacts.index_saved; FileWatcherFacts.readme_saved])
    !! "repo-a" = Some 2%nat.
Proof.
  destruct (getChangeEventStats_counts
              [FileWatcherFacts.index_saved; FileWatcherFacts.readme_saved])
    as (Ht & _ & _ & _ & _ & _ & Hby).
  - intros e He.
    apply elem_of_cons in He as [->|He];
      [apply (bool_decide_unpack _); vm_compute; exact I|].
    apply elem_of_cons in He as [->|He];
      [apply (bool_decide_unpack _); vm_compute; exact I|].
    by apply elem_of_nil in He.
  - split; [exact Ht|]. rewrite (Hby "repo-a"). reflexivity.
Defined.

End ChangeStatsFacts.

(** ** The theme store *)

Module ThemeFacts.
Import ThemeStore.

(** The shade a theme stands for. *)
Definition shade_of (t : Theme) (prefers : bool) : Shade :=
  match t with
  | dark => shade_dark
  | light => shade_light
  | system => if prefers then shade_dark else shade_light
  end.

(** The document, the store of the effective theme and the local storage
    all follow the theme. *)
Definition synced (p : Page) : Prop :=
  initialized p = true /\
  data_theme p = Some (shade_of (theme p) (prefers_dark p)) /\
  currentTheme p = shade_of (theme p) (prefers_dark p) /\
  stored p = Some (theme_text (theme p)).

Lemma synced_initializeTheme (p : Page) : synced (initializeTheme p).
Proof.
  unfold initializeTheme, synced.
  destruct (saved_theme (stored p)) as [t|]; unfold theme_set;
    destruct p as [th cur dt st ini pref]; simpl;
    try destruct t; destruct th; destruct ini; destruct pref; simpl; done.
Qed.

Lemma synced_step (p : Page) (a : Action) : synced p -> synced (step p a).
Proof.
  destruct a as [| |t|b]; [intros _; apply synced_initializeTheme|..];
    intros (Hi & Hd & Hc & Hs); destruct p as [th cur dt st ini pref];
    simpl in *; subst; unfold synced, toggleTheme, setTheme, theme_set, system_changes;
    simpl; try destruct t; destruct th; try destruct b; destruct pref; simpl; done.
Qed.

Lemma synced_run (actions : list Action) (p : Page) : synced p -> synced (run actions p).
Proof.
  revert p. induction actions as [|a actions IH]; intros p Hp; [done|].
  simpl. apply IH. by apply synced_step.
Qed.

(** X28. Once [initializeTheme] has run, whatever follows (toggles, explicit
    choices, changes of the system setting, further initialisations): the
    [data-theme] attribute of the document and the [currentTheme] store show
    the shade of the chosen theme, which for [system] is the shade the
    system prefers at that moment, and the local storage holds the chosen
    theme. *)
Theorem theme_stays_in_sync
  (item : option string) (prefers : bool) (actions : list Action) :
  let p := run actions (initializeTheme (loaded item prefers)) in
  data_theme p = Some (shade_of (theme p) (prefers_dark p)) /\
  currentTheme p = shade_of (theme p) (prefers_dark p) /\
  stored p = Some (theme_text (theme p)).
Proof.
  cbn zeta.
  destruct (synced_run actions _ (synced_initializeTheme (loaded item prefers)))
    as (_ & Hd & Hc & Hs).
  done.
Qed.

Lemma saved_theme_text (t : Theme) : saved_theme (Some (theme_text t)) = Some t.
Proof. by destruct t. Qed.

(** X29. The chosen theme survives a restart: when the page is loaded again
    with the local storage the previous session left, [initializeTheme]
    restores the theme that was chosen last, whatever the system prefers
    then. Without a stored theme, or with a text that is none of dark, light
    and system, the theme is dark, and dark is what gets stored. *)
Theorem theme_survives_restart
  (item : option string) (prefers prefers' : bool) (actions : list Action) :
  let last := run actions (initializeTheme (loaded item prefers)) in
  theme (initializeTheme (loaded (stored last) prefers')) = theme last /\
  (saved_theme item = None ->
   theme (initializeTheme (loaded item prefers)) = dark /\
   stored (initializeTheme (loaded item prefers)) = Some "dark").
Proof.
  cbn zeta. split.
  - destruct (synced_run actions _ (synced_initializeTheme (loaded item prefers)))
      as (_ & _ & _ & Hs).
    rewrite Hs. unfold initializeTheme, loaded. cbn [stored].
    rewrite saved_theme_text. unfold theme_set.
    by destruct (theme (run actions _)); destruct prefers'.
  - intros Hnone. unfold initializeTheme, loaded. cbn [stored].
    rewrite Hnone. by destruct prefers.
Qed.

(** X30. [toggleTheme] steps through dark, light, system and back to dark.
    On an initialised page three toggles bring back the whole page: theme,
    document attribute, effective theme and stored item. *)
Theorem toggleTheme_cycle
  (item : option string) (prefers : bool) (actions : list Action) :
  let p := run actions (initializeTheme (loaded item prefers)) in
  theme (toggleTheme p) =
    match theme p with
    | dark => light
    | light => system
    | system => dark
    end /\
  toggleTheme (toggleTheme (toggleTheme p)) = p.
Proof.
  cbn zeta.
  destruct (synced_run actions _ (synced_initializeTheme (loaded item prefers)))
    as (Hi & Hd & Hc & Hs).
  destruct (run actions _) as [th cur dt st ini pref]. simpl in *. subst.
  unfold toggleTheme, theme_set. destruct th, pref; simpl; done.
Qed.

End ThemeFacts.

(** ** Reload calls in flight *)

Module ReloadFacts.
Import Config FileWatcher.

(** The answers a suspended call still waits for, at most. *)
Definition awaits (p : Pending) : nat :=
  match p with
  | AwaitConfig _ => 2%nat
  | AwaitReload _ _ => 1%nat
  end.

Definition pending_work {B : Type} (app : App B) : nat :=
  sum_list (awaits <$> in_flight app).

Lemma work_delete (l : list Pending) (k : nat) (p : Pending) :
  l !! k = Some p ->
  (sum_list (awaits <$> delete k l) + awaits p = sum_list (awaits <$> l))%nat.
Proof.
  revert k. induction l as [|x l IH]; intros [|k] Hk; simpl in *; try done.
  - injection Hk as ->. unfold fmap. lia.
  - specialize (IH k Hk). unfold fmap in *. lia.
Qed.

Lemma work_snoc (l : list Pending) (p : Pending) :
  sum_list (awaits <$> (l ++ [p])) = (sum_list (awaits <$> l) + awaits p)%nat.
Proof.
  induction l as [|x l IH]; simpl in *; unfold fmap in *; [lia|]. rewrite IH. lia.
Qed.

(** X2. Every call of [reloadAgentLibrary] comes to an end: each answer that
    reaches a suspended call brings it closer to its end by one step (a
    call waiting for the configuration ends or goes on to wait for the
    reload; a call waiting for the reload ends), sending at most one
    command; nothing is retried. An answer for a call that is not in flight
    changes nothing. *)
Theorem resume_makes_progress
  (B : Type)
  (reload_agent_library : string -> string -> B -> Result string string * B)
  (getCurrentConfig : AppConfig -> B -> Result AppConfig string * (AppConfig * B))
  (k : nat) (app : App B) :
  ((k < length (in_flight app))%nat ->
   (pending_work (resume reload_agent_library getCurrentConfig k app)
    < pending_work app)%nat /\
   (length (in_flight (resume reload_agent_library getCurrentConfig k app))
    <= length (in_flight app))%nat /\
   (length (sent (resume reload_agent_library getCurrentConfig k app))
    <= S (length (sent app)))%nat) /\
  ((length (in_flight app) <= k)%nat ->
   resume reload_agent_library getCurrentConfig k app = app).
Proof.
  split.
  - intros Hk. apply lookup_lt_is_Some in Hk as [p Hp].
    pose proof (work_delete _ _ _ Hp) as Hwork.
    assert (length (delete k (in_flight app)) < length (in_flight app))%nat as Hlen.
    { rewrite length_delete by (by eexists). apply lookup_lt_Some in Hp. lia. }
    unfold resume, pending_work. rewrite Hp. destruct p as [i|i path]; simpl in Hwork.
    + destruct (getCurrentConfig _ _) as [[config|e] [stored b]];
        [destruct (List.find _ _)|]; unfold invoke_reload; cbn [in_flight sent];
        rewrite ?work_snoc, ?length_app; simpl; lia.
    + destruct (reload_agent_library _ _ _) as [[text|e] b]; cbn [in_flight sent]; lia.
  - intros Hk. unfold resume. by rewrite lookup_ge_None_2.
Qed.

End ReloadFacts.
